(** * lib-go-cli: validation of command-line flag values

    A shallow embedding of [cli_flag.go]: the constraint bitmask, the
    [CLIFlag] record, [IsRequireValue] and [ValidateValue], together with
    models of the parts of the Go standard library the validation calls
    ([os.Stat], [os.ReadFile], [json.Valid], [regexp.MatchString]). *)

From Stdlib Require Import ZArith NArith String Ascii List Lia Bool.
From Stdlib.Strings Require Import Byte.
Import ListNotations.

Local Open Scope string_scope.
Local Open Scope Z_scope.

(** ** Constraint bits (the [const] block of cli_flag.go) *)

Definition Required : Z := 1.
Definition TypeString : Z := 8.
Definition TypePathFile : Z := 16.
Definition TypeBool : Z := 32.
Definition TypeInt : Z := 64.
Definition TypeFloat : Z := 128.
Definition TypeAlphanumeric : Z := 256.
Definition MustExist : Z := 512.
Definition AllowMany : Z := 1024.
Definition ManySeparatorColon : Z := 2048.
Definition ManySeparatorSemiColon : Z := 4096.
Definition AllowDots : Z := 8192.
Definition AllowUnderscore : Z := 16384.
Definition AllowHyphen : Z := 32768.
Definition TypeEmail : Z := 65536.
Definition TypeFQDN : Z := 131072.
Definition TypePathDir : Z := 262144.
Definition TypePathRegularFile : Z := 524288.
Definition ValidJSON : Z := 1048576.

(** [n .& m] is Go's [n & m] on [int32]: every mask above is a positive
    constant below [2^31], so the two's-complement conjunction of an
    [int32] with it is [Z.land], also when [n] is negative. *)
Notation "n .& m" := (Z.land n m) (at level 40, left associativity).

(** ** The flag declaration *)

(** The callback field [fn func( *CLICmd)] is owned by the command
    dispatcher and is never read by the functions embedded here; the
    record keeps the five data fields.  [nflags] is an [int32]; nothing
    below depends on its range. *)
Record CLIFlag := NewCLIFlag {
  name : string;
  alias : string;
  helpValue : string;
  desc : string;
  nflags : Z
}.

(** ** Go values: errors and panics *)

(** File-system error numbers that [os.Stat] and [os.ReadFile] report. *)
Inductive Errno := ENOENT | EACCES | ENOTDIR | ELOOP | ENAMETOOLONG | EIO | EISDIR.

(** Codes of [regexp/syntax.Error]. [ErrUnsupported] marks pattern syntax
    that Go accepts or rejects but that the fragment modelled below does
    not cover; no pattern built by [ValidateValue] reaches it. *)
Inductive ErrorCode :=
| ErrMissingParen | ErrUnexpectedParen | ErrMissingRepeatArgument
| ErrInvalidRepeatOp | ErrInvalidRepeatSize | ErrMissingBracket
| ErrInvalidCharRange | ErrTrailingBackslash | ErrInvalidEscape
| ErrUnsupported.

(** The [error] interface with the dynamic types that occur here. *)
Inductive error :=
| nil
| errorString (s : string)
| PathError (e : Errno)
| SyntaxError (code : ErrorCode).

Module errors.
Definition New (s : string) : error := errorString s.
End errors.

(** The outcome of running a Go function body: it returns a value or the
    goroutine panics. *)
Inductive outcome (A : Type) :=
| Return (a : A)
| Panic (msg : string).
Arguments Return {A} a.
Arguments Panic {A} msg.

Definition bind {A B : Type} (m : outcome A) (k : A -> outcome B) : outcome B :=
  match m with
  | Return a => k a
  | Panic msg => Panic msg
  end.

Notation "x <- m ;; k" := (bind m (fun x => k))
  (at level 61, m at next level, right associativity).

Definition nil_dereference : string :=
  "runtime error: invalid memory address or nil pointer dereference".

(** ** Model of package [os] and [io/fs] *)

Module fs.
(** [fs.FileMode] is a [uint32]; the type bits are those of io/fs. *)
Definition FileMode := N.
Definition ModeDir : N := 2 ^ 31.
Definition ModeSymlink : N := 2 ^ 27.
Definition ModeDevice : N := 2 ^ 26.
Definition ModeNamedPipe : N := 2 ^ 25.
Definition ModeSocket : N := 2 ^ 24.
Definition ModeCharDevice : N := 2 ^ 21.
Definition ModeIrregular : N := 2 ^ 19.
Definition ModeType : N :=
  N.lor ModeDir (N.lor ModeSymlink (N.lor ModeNamedPipe (N.lor ModeSocket
    (N.lor ModeDevice (N.lor ModeCharDevice ModeIrregular))))).

Definition IsDir (m : FileMode) : bool := negb (N.land m ModeDir =? 0)%N.
Definition IsRegular (m : FileMode) : bool := (N.land m ModeType =? 0)%N.

Record FileInfo := { mode : FileMode }.
End fs.

Module os.
(** The state of the file system as the validation observes it: what
    [stat] answers for a path and what reading a path yields. *)
Record FileSystem := {
  stat : string -> fs.FileInfo + Errno;
  read : string -> list byte + Errno
}.

(** [os.Stat]: the pair Go returns, [(info, nil)] or [(nil, err)]. *)
Definition Stat (w : FileSystem) (path : string) : option fs.FileInfo * error :=
  match stat w path with
  | inl fi => (Some fi, nil)
  | inr e => (None, PathError e)
  end.

(** [os.ReadFile]. *)
Definition ReadFile (w : FileSystem) (path : string) : list byte * error :=
  match read w path with
  | inl dat => (dat, nil)
  | inr e => ([], PathError e)
  end.

(** [os.IsNotExist]: false on [nil] and on every error but ENOENT. *)
Definition IsNotExist (err : error) : bool :=
  match err with
  | PathError ENOENT => true
  | _ => false
  end.
End os.

(** Method calls through a [FileInfo] interface value: calling a method
    on the nil interface panics. *)
Definition FileInfo_Mode (fileInfo : option fs.FileInfo) : outcome fs.FileMode :=
  match fileInfo with
  | Some fi => Return (fs.mode fi)
  | None => Panic nil_dereference
  end.

Definition FileInfo_IsDir (fileInfo : option fs.FileInfo) : outcome bool :=
  match fileInfo with
  | Some fi => Return (fs.IsDir (fs.mode fi))
  | None => Panic nil_dereference
  end.

(** ** Model of package [regexp] *)

(** The fragment of Go's RE2 syntax (parsed with the [Perl] flags, as
    [regexp.Compile] does) that covers every pattern [ValidateValue]
    builds: literals, groups, alternation, [^] and [$] as begin and end of
    text, bracket classes of characters and ranges with backslash escapes
    of punctuation, and the repetitions [*], [+], [?], [{n}], [{n,}],
    [{n,m}].

    Strings are sequences of bytes.  Every class a pattern of this
    fragment can hold is a set of ASCII characters, so matching byte by
    byte agrees with Go's matching rune by rune: a byte of a multi-byte
    or invalid UTF-8 sequence belongs to no class on either side. *)
Module syntax.

Inductive Regexp :=
| OpNoMatch
| OpEmptyMatch
| OpCharClass (ranges : list (N * N))
| OpBeginText
| OpEndText
| OpConcat (r1 r2 : Regexp)
| OpAlternate (r1 r2 : Regexp)
| OpStar (r : Regexp).

Definition code (c : ascii) : N := N_of_ascii c.

Definition literal (c : ascii) : Regexp := OpCharClass [(code c, code c)].

Definition isdigit (c : ascii) : bool := (48 <=? code c)%N && (code c <=? 57)%N.
Definition isalnum (c : ascii) : bool :=
  isdigit c || ((65 <=? code c)%N && (code c <=? 90)%N)
            || ((97 <=? code c)%N && (code c <=? 122)%N).

Fixpoint mkConcat (rs : list Regexp) : Regexp :=
  match rs with
  | [] => OpEmptyMatch
  | [r] => r
  | r :: rs' => OpConcat r (mkConcat rs')
  end.

Fixpoint mkAlternate (rs : list Regexp) : Regexp :=
  match rs with
  | [] => OpNoMatch
  | [r] => r
  | r :: rs' => OpAlternate r (mkAlternate rs')
  end.

(** *** Repetition, expanded the way [Regexp.Simplify] does *)

Definition star (r : Regexp) : Regexp := OpStar r.
Definition plus (r : Regexp) : Regexp := OpConcat r (OpStar r).
Definition quest (r : Regexp) : Regexp := OpAlternate r OpEmptyMatch.

(** [x{n,m}] is [n] copies of [x] followed by [(x(x(x)?)?)?] with
    [m - n] nested copies. *)
Fixpoint optional_suffix (k : nat) (r : Regexp) : Regexp :=
  match k with
  | O => OpEmptyMatch
  | S O => quest r
  | S k' => quest (OpConcat r (optional_suffix k' r))
  end.

Definition repeat (min : nat) (max : option nat) (r : Regexp) : Regexp :=
  match max with
  | None =>
      match min with
      | O => star r
      | S n => mkConcat (List.repeat r n ++ [plus r])
      end
  | Some max =>
      mkConcat (List.repeat r min ++
                match (max - min)%nat with
                | O => []
                | k => [optional_suffix k r]
                end)
  end.

(** *** The parser *)

(** [parseEscape], after the backslash: an escaped ASCII character that
    is not a letter or digit stands for itself. *)
Definition parseEscape (t : string) : (ascii * string) + ErrorCode :=
  match t with
  | EmptyString => inr ErrTrailingBackslash
  | String c rest =>
      if (code c <? 128)%N && negb (isalnum c) then inl (c, rest)
      else inr ErrUnsupported
  end.

Definition parseClassChar (s : string) : (ascii * string) + ErrorCode :=
  match s with
  | EmptyString => inr ErrMissingBracket
  | String "\" rest => parseEscape rest
  | String c rest => if (code c <? 128)%N then inl (c, rest) else inr ErrUnsupported
  end.

Definition parseClassRange (s : string) : (N * N * string) + ErrorCode :=
  match parseClassChar s with
  | inr e => inr e
  | inl (lo, s1) =>
      match s1 with
      | String "-" (String c2 _ as s2) =>
          if Ascii.eqb c2 "]" then inl (code lo, code lo, s1)
          else match parseClassChar s2 with
               | inr e => inr e
               | inl (hi, s3) =>
                   if (code hi <? code lo)%N then inr ErrInvalidCharRange
                   else inl (code lo, code hi, s3)
               end
      | _ => inl (code lo, code lo, s1)
      end
  end.

(** The loop of [parseClass], after the opening bracket; [first] is
    true before the first item, where a closing bracket is a member. *)
Fixpoint parseClassItems (fuel : nat) (t : string) (first : bool)
    (class : list (N * N)) : (list (N * N) * string) + ErrorCode :=
  match fuel with
  | O => inr ErrMissingBracket
  | S fuel' =>
      match t with
      | String "]" rest =>
          if first then
            match parseClassRange t with
            | inr e => inr e
            | inl (lo, hi, t') => parseClassItems fuel' t' false (class ++ [(lo, hi)])
            end
          else inl (class, rest)
      | String "[" (String ":" _) => inr ErrUnsupported
      | _ =>
          match parseClassRange t with
          | inr e => inr e
          | inl (lo, hi, t') => parseClassItems fuel' t' false (class ++ [(lo, hi)])
          end
      end
  end.

Definition parseClass (t : string) : (Regexp * string) + ErrorCode :=
  match t with
  | String "^" _ => inr ErrUnsupported
  | _ =>
      match parseClassItems (S (String.length t)) t true [] with
      | inr e => inr e
      | inl (class, rest) => inl (OpCharClass class, rest)
      end
  end.

(** [parseInt]: a run of digits without a leading zero.  Go caps the
    value to avoid overflow; here it is an unbounded [N], which agrees
    with the capped value on whether it exceeds 1000. *)
Fixpoint digits_value (acc : N) (s : string) : N * string :=
  match s with
  | String c rest =>
      if isdigit c
      then digits_value (acc * 10 + (code c - 48))%N rest
      else (acc, s)
  | EmptyString => (acc, s)
  end.

Definition parseInt (s : string) : option (N * string) :=
  match s with
  | String c rest =>
      if negb (isdigit c) then None
      else match rest with
           | String c2 _ =>
               if Ascii.eqb c "0" && isdigit c2 then None else Some (digits_value 0 s)
           | EmptyString => Some (digits_value 0 s)
           end
  | EmptyString => None
  end.

(** [parseRepeat], after the opening brace: [None] when the text is not
    a repetition (the brace is then a literal). *)
Definition parseRepeat (s : string) : option (N * option N * string) :=
  match parseInt s with
  | None => None
  | Some (min, s1) =>
      match s1 with
      | String "}" rest => Some (min, Some min, rest)
      | String "," (String "}" rest) => Some (min, None, rest)
      | String "," s2 =>
          match parseInt s2 with
          | Some (max, String "}" rest) => Some (min, Some max, rest)
          | _ => None
          end
      | _ => None
      end
  end.

(** The parse stack: the innermost open group is a [frame] holding the
    alternatives completed so far and the items of the current
    concatenation, both most recent first. *)
Record frame := { alts : list Regexp; items : list Regexp }.

Definition empty_frame : frame := {| alts := []; items := [] |}.

Definition push (r : Regexp) (f : frame) : frame :=
  {| alts := alts f; items := r :: items f |}.

Definition verticalBar (f : frame) : frame :=
  {| alts := mkConcat (rev (items f)) :: alts f; items := [] |}.

Definition collapse (f : frame) : Regexp :=
  mkAlternate (rev (mkConcat (rev (items f)) :: alts f)).

(** [parser.repeat]: applies a repetition to the last item. *)
Definition repeat_last (op : Regexp -> Regexp) (lastRepeat : bool) (f : frame)
    : frame + ErrorCode :=
  if lastRepeat then inr ErrInvalidRepeatOp
  else match items f with
       | [] => inr ErrMissingRepeatArgument
       | sub :: rest => inl {| alts := alts f; items := op sub :: rest |}
       end.

(** A [?] right after a repetition operator marks it non-greedy, which
    changes which match is preferred but not whether there is one. *)
Definition skip_nongreedy (t : string) : string :=
  match t with
  | String "?" rest => rest
  | _ => t
  end.

Fixpoint parse_loop (fuel : nat) (t : string) (lastRepeat : bool)
    (cur : frame) (outer : list frame) : Regexp + ErrorCode :=
  match fuel with
  | O => inr ErrUnsupported
  | S fuel' =>
      let repetition op after :=
        match repeat_last op lastRepeat cur with
        | inr e => inr e
        | inl cur' => parse_loop fuel' (skip_nongreedy after) true cur' outer
        end in
      match t with
      | EmptyString =>
          match outer with
          | [] => inl (collapse cur)
          | _ => inr ErrMissingParen
          end
      | String "(" (String "?" _) => inr ErrUnsupported
      | String "(" rest => parse_loop fuel' rest false empty_frame (cur :: outer)
      | String "|" rest => parse_loop fuel' rest false (verticalBar cur) outer
      | String ")" rest =>
          match outer with
          | [] => inr ErrUnexpectedParen
          | f :: outer' => parse_loop fuel' rest false (push (collapse cur) f) outer'
          end
      | String "^" rest => parse_loop fuel' rest false (push OpBeginText cur) outer
      | String "$" rest => parse_loop fuel' rest false (push OpEndText cur) outer
      | String "." rest => inr ErrUnsupported
      | String "[" rest =>
          match parseClass rest with
          | inr e => inr e
          | inl (re, rest') => parse_loop fuel' rest' false (push re cur) outer
          end
      | String "*" rest => repetition star rest
      | String "+" rest => repetition plus rest
      | String "?" rest => repetition quest rest
      | String "{" rest =>
          match parseRepeat rest with
          | None => parse_loop fuel' rest false (push (literal "{") cur) outer
          | Some (min, max, after) =>
              if (1000 <? min)%N then inr ErrInvalidRepeatSize
              else match max with
                   | Some m =>
                       if (1000 <? m)%N || (m <? min)%N then inr ErrInvalidRepeatSize
                       else repetition (repeat (N.to_nat min) (Some (N.to_nat m))) after
                   | None => repetition (repeat (N.to_nat min) None) after
                   end
          end
      | String "\" rest =>
          match parseEscape rest with
          | inr e => inr e
          | inl (c, rest') => parse_loop fuel' rest' false (push (literal c) cur) outer
          end
      | String c rest =>
          if (code c <? 128)%N
          then parse_loop fuel' rest false (push (literal c) cur) outer
          else inr ErrUnsupported
      end
  end.

Definition Parse (s : string) : Regexp + ErrorCode :=
  parse_loop (S (String.length s)) s false empty_frame [].

End syntax.

Module regexp.
Import syntax.

Definition class_mem (ranges : list (N * N)) (c : ascii) : bool :=
  existsb (fun r => (fst r <=? code c)%N && (code c <=? snd r)%N) ranges.

(** Does [r] match the empty string at a position that is the begin of
    the text ([bot]) and the end of the text ([eot])? *)
Fixpoint nullable (bot eot : bool) (r : Regexp) : bool :=
  match r with
  | OpNoMatch => false
  | OpEmptyMatch => true
  | OpCharClass _ => false
  | OpBeginText => bot
  | OpEndText => eot
  | OpConcat r1 r2 => nullable bot eot r1 && nullable bot eot r2
  | OpAlternate r1 r2 => nullable bot eot r1 || nullable bot eot r2
  | OpStar _ => true
  end.

(** The derivative of [r] by the character [c] read at a position that
    is the begin of the text when [bot]; what it yields is matched
    after [c], away from the begin of the text. *)
Fixpoint der (bot : bool) (c : ascii) (r : Regexp) : Regexp :=
  match r with
  | OpNoMatch | OpEmptyMatch | OpBeginText | OpEndText => OpNoMatch
  | OpCharClass ranges => if class_mem ranges c then OpEmptyMatch else OpNoMatch
  | OpConcat r1 r2 =>
      if nullable bot false r1
      then OpAlternate (OpConcat (der bot c r1) r2) (der bot c r2)
      else OpConcat (der bot c r1) r2
  | OpAlternate r1 r2 => OpAlternate (der bot c r1) (der bot c r2)
  | OpStar r1 => OpConcat (der bot c r1) (OpStar r1)
  end.

(** [r] matches all of [w], which runs to the end of the text. *)
Fixpoint full (bot : bool) (r : Regexp) (w : list ascii) : bool :=
  match w with
  | [] => nullable bot true r
  | c :: w' => full false (der bot c r) w'
  end.

Definition anything : Regexp := OpStar (OpCharClass [(0, 255)%N]).

(** A pattern is searched for anywhere in the text: any bytes may come
    before and after the match. *)
Definition searched (re : Regexp) : Regexp :=
  OpConcat anything (OpConcat re anything).

(** [regexp.MatchString]: whether some substring of [s] matches the
    pattern, and the error of compiling the pattern. *)
Definition MatchString (pattern s : string) : bool * error :=
  match Parse pattern with
  | inr code => (false, SyntaxError code)
  | inl re =>
      (full true (searched re) (list_ascii_of_string s), nil)
  end.
End regexp.

(** ** Model of [encoding/json.Valid]

    The scanner of encoding/json: a state machine stepped once per input
    byte, with a stack of the enclosing objects and arrays. *)
Module json.

Inductive opcode :=
| scanContinue | scanBeginLiteral | scanBeginObject | scanObjectKey
| scanObjectValue | scanEndObject | scanBeginArray | scanArrayValue
| scanEndArray | scanSkipSpace | scanEnd | scanError.

Inductive parseKind := parseObjectKey | parseObjectValue | parseArrayValue.

Inductive stepfn :=
| stateBeginValueOrEmpty | stateBeginValue | stateBeginStringOrEmpty
| stateBeginString | stateEndValue | stateEndTop
| stateInString | stateInStringEsc | stateInStringEscU | stateInStringEscU1
| stateInStringEscU12 | stateInStringEscU123
| stateNeg | state1 | state0 | stateDot | stateDot0 | stateE | stateESign | stateE0
| stateT | stateTr | stateTru | stateF | stateFa | stateFal | stateFals
| stateN | stateNu | stateNul | stateError.

(** The fields of [scanner] that decide validity; [parseState] has its
    top at the head, [err] records that an error was set. *)
Record scanner := {
  step : stepfn;
  endTop : bool;
  parseState : list parseKind;
  err : bool
}.

Definition maxNestingDepth : N := 10000.

Definition reset : scanner :=
  {| step := stateBeginValue; endTop := false; parseState := []; err := false |}.

Definition set_step (s : scanner) (f : stepfn) : scanner :=
  {| step := f; endTop := endTop s; parseState := parseState s; err := err s |}.

Definition set_top (s : scanner) (k : parseKind) : scanner :=
  {| step := step s; endTop := endTop s;
     parseState := match parseState s with [] => [] | _ :: ps => k :: ps end;
     err := err s |}.

(** [scanner.error]. *)
Definition error_ (s : scanner) : scanner * opcode :=
  ({| step := stateError; endTop := endTop s; parseState := parseState s; err := true |},
   scanError).

Definition pushParseState (s : scanner) (newParseState : parseKind)
    (successState : opcode) : scanner * opcode :=
  let s' := {| step := step s; endTop := endTop s;
               parseState := newParseState :: parseState s; err := err s |} in
  if (N.of_nat (List.length (parseState s')) <=? maxNestingDepth)%N
  then (s', successState)
  else error_ s'.

Definition popParseState (s : scanner) : scanner :=
  match List.tl (parseState s) with
  | [] => {| step := stateEndTop; endTop := true; parseState := []; err := err s |}
  | ps => {| step := stateEndValue; endTop := endTop s; parseState := ps; err := err s |}
  end.

Definition eqc (c k : byte) : bool := Byte.eqb c k.
Definition between (lo c hi : byte) : bool :=
  (Byte.to_N lo <=? Byte.to_N c)%N && (Byte.to_N c <=? Byte.to_N hi)%N.

Definition isSpace (c : byte) : bool :=
  eqc c " " || eqc c x09 || eqc c x0d || eqc c x0a.

Definition isHex (c : byte) : bool :=
  between "0" c "9" || between "a" c "f" || between "A" c "F".

Definition stateEndTop_ (s : scanner) (c : byte) : scanner * opcode :=
  if negb (isSpace c) then (fst (error_ s), scanEnd) else (s, scanEnd).

Definition stateEndValue_ (s : scanner) (c : byte) : scanner * opcode :=
  match parseState s with
  | [] =>
      stateEndTop_ {| step := stateEndTop; endTop := true;
                      parseState := []; err := err s |} c
  | ps :: _ =>
      if isSpace c then (set_step s stateEndValue, scanSkipSpace)
      else match ps with
           | parseObjectKey =>
               if eqc c ":"
               then (set_step (set_top s parseObjectValue) stateBeginValue, scanObjectKey)
               else error_ s
           | parseObjectValue =>
               if eqc c ","
               then (set_step (set_top s parseObjectKey) stateBeginString, scanObjectValue)
               else if eqc c "}" then (popParseState s, scanEndObject)
               else error_ s
           | parseArrayValue =>
               if eqc c "," then (set_step s stateBeginValue, scanArrayValue)
               else if eqc c "]" then (popParseState s, scanEndArray)
               else error_ s
           end
  end.

Definition stateBeginValue_ (s : scanner) (c : byte) : scanner * opcode :=
  if isSpace c then (s, scanSkipSpace)
  else if eqc c "{"
  then pushParseState (set_step s stateBeginStringOrEmpty) parseObjectKey scanBeginObject
  else if eqc c "["
  then pushParseState (set_step s stateBeginValueOrEmpty) parseArrayValue scanBeginArray
  else if eqc c x22 then (set_step s stateInString, scanBeginLiteral)
  else if eqc c "-" then (set_step s stateNeg, scanBeginLiteral)
  else if eqc c "0" then (set_step s state0, scanBeginLiteral)
  else if eqc c "t" then (set_step s stateT, scanBeginLiteral)
  else if eqc c "f" then (set_step s stateF, scanBeginLiteral)
  else if eqc c "n" then (set_step s stateN, scanBeginLiteral)
  else if between "1" c "9" then (set_step s state1, scanBeginLiteral)
  else error_ s.

Definition stateBeginValueOrEmpty_ (s : scanner) (c : byte) : scanner * opcode :=
  if isSpace c then (s, scanSkipSpace)
  else if eqc c "]" then stateEndValue_ s c
  else stateBeginValue_ s c.

Definition stateBeginString_ (s : scanner) (c : byte) : scanner * opcode :=
  if isSpace c then (s, scanSkipSpace)
  else if eqc c x22 then (set_step s stateInString, scanBeginLiteral)
  else error_ s.

Definition stateBeginStringOrEmpty_ (s : scanner) (c : byte) : scanner * opcode :=
  if isSpace c then (s, scanSkipSpace)
  else if eqc c "}" then stateEndValue_ (set_top s parseObjectValue) c
  else stateBeginString_ s c.

Definition stateInString_ (s : scanner) (c : byte) : scanner * opcode :=
  if eqc c x22 then (set_step s stateEndValue, scanContinue)
  else if eqc c "\" then (set_step s stateInStringEsc, scanContinue)
  else if (Byte.to_N c <? 32)%N then error_ s
  else (s, scanContinue).

Definition stateInStringEsc_ (s : scanner) (c : byte) : scanner * opcode :=
  if eqc c "b" || eqc c "f" || eqc c "n" || eqc c "r" || eqc c "t"
     || eqc c "\" || eqc c "/" || eqc c x22
  then (set_step s stateInString, scanContinue)
  else if eqc c "u" then (set_step s stateInStringEscU, scanContinue)
  else error_ s.

(** The four states of a [\uXXXX] escape, each moving to [next]. *)
Definition hexDigit (next : stepfn) (s : scanner) (c : byte) : scanner * opcode :=
  if isHex c then (set_step s next, scanContinue) else error_ s.

Definition state0_ (s : scanner) (c : byte) : scanner * opcode :=
  if eqc c "." then (set_step s stateDot, scanContinue)
  else if eqc c "e" || eqc c "E" then (set_step s stateE, scanContinue)
  else stateEndValue_ s c.

Definition state1_ (s : scanner) (c : byte) : scanner * opcode :=
  if between "0" c "9" then (set_step s state1, scanContinue)
  else state0_ s c.

Definition stateNeg_ (s : scanner) (c : byte) : scanner * opcode :=
  if eqc c "0" then (set_step s state0, scanContinue)
  else if between "1" c "9" then (set_step s state1, scanContinue)
  else error_ s.

Definition stateDot_ (s : scanner) (c : byte) : scanner * opcode :=
  if between "0" c "9" then (set_step s stateDot0, scanContinue) else error_ s.

Definition stateDot0_ (s : scanner) (c : byte) : scanner * opcode :=
  if between "0" c "9" then (s, scanContinue)
  else if eqc c "e" || eqc c "E" then (set_step s stateE, scanContinue)
  else stateEndValue_ s c.

Definition stateESign_ (s : scanner) (c : byte) : scanner * opcode :=
  if between "0" c "9" then (set_step s stateE0, scanContinue) else error_ s.

Definition stateE_ (s : scanner) (c : byte) : scanner * opcode :=
  if eqc c "+" || eqc c "-" then (set_step s stateESign, scanContinue)
  else stateESign_ s c.

Definition stateE0_ (s : scanner) (c : byte) : scanner * opcode :=
  if between "0" c "9" then (s, scanContinue) else stateEndValue_ s c.

(** The states inside [true], [false] and [null]: the byte [want]
    moves on to [next]. *)
Definition keyword (want : byte) (next : stepfn) (s : scanner) (c : byte)
    : scanner * opcode :=
  if eqc c want then (set_step s next, scanContinue) else error_ s.

(** [s.step(s, c)]. *)
Definition call_step (s : scanner) (c : byte) : scanner * opcode :=
  match step s with
  | stateBeginValueOrEmpty => stateBeginValueOrEmpty_ s c
  | stateBeginValue => stateBeginValue_ s c
  | stateBeginStringOrEmpty => stateBeginStringOrEmpty_ s c
  | stateBeginString => stateBeginString_ s c
  | stateEndValue => stateEndValue_ s c
  | stateEndTop => stateEndTop_ s c
  | stateInString => stateInString_ s c
  | stateInStringEsc => stateInStringEsc_ s c
  | stateInStringEscU => hexDigit stateInStringEscU1 s c
  | stateInStringEscU1 => hexDigit stateInStringEscU12 s c
  | stateInStringEscU12 => hexDigit stateInStringEscU123 s c
  | stateInStringEscU123 => hexDigit stateInString s c
  | stateNeg => stateNeg_ s c
  | state1 => state1_ s c
  | state0 => state0_ s c
  | stateDot => stateDot_ s c
  | stateDot0 => stateDot0_ s c
  | stateE => stateE_ s c
  | stateESign => stateESign_ s c
  | stateE0 => stateE0_ s c
  | stateT => keyword "r" stateTr s c
  | stateTr => keyword "u" stateTru s c
  | stateTru => keyword "e" stateEndValue s c
  | stateF => keyword "a" stateFa s c
  | stateFa => keyword "l" stateFal s c
  | stateFal => keyword "s" stateFals s c
  | stateFals => keyword "e" stateEndValue s c
  | stateN => keyword "u" stateNu s c
  | stateNu => keyword "l" stateNul s c
  | stateNul => keyword "l" stateEndValue s c
  | stateError => (s, scanError)
  end.

(** [scanner.eof]. *)
Definition eof (s : scanner) : opcode :=
  if err s then scanError
  else if endTop s then scanEnd
  else let s' := fst (call_step s " ") in
       if endTop s' then scanEnd else scanError.

(** [checkValid], as whether it returns a nil error. *)
Fixpoint checkValid (data : list byte) (scan : scanner) : bool :=
  match data with
  | [] => match eof scan with scanError => false | _ => true end
  | c :: rest =>
      match call_step scan c with
      | (_, scanError) => false
      | (scan', _) => checkValid rest scan'
      end
  end.

Definition Valid (data : list byte) : bool := checkValid data reset.

End json.

(** ** cli_flag.go *)

(** [IsRequireValue]. *)
Definition IsRequireValue (c : CLIFlag) : bool :=
  (nflags c .& TypeString >? 0) || (nflags c .& TypePathFile >? 0)
  || (nflags c .& TypePathRegularFile >? 0) || (nflags c .& TypePathDir >? 0)
  || (nflags c .& TypeInt >? 0) || (nflags c .& TypeFloat >? 0)
  || (nflags c .& TypeAlphanumeric >? 0).

(** [s != ""]. *)
Definition nonempty (s : string) : bool := negb (s =? "")%string.

(** The pattern for one value of the flag's type: the [reType] that the
    chain of conditionals on [TypeInt], [TypeFloat], [TypeAlphanumeric]
    assigns; the variable keeps its zero value, the empty string, when
    none of the three bits is set. *)
Definition reType (c : CLIFlag) : string :=
  if nflags c .& TypeInt >? 0 then "[0-9]+"
  else if nflags c .& TypeFloat >? 0 then "[0-9]{1,16}\.[0-9]{1,16}"
  else if nflags c .& TypeAlphanumeric >? 0 then
    if (nflags c .& AllowHyphen >? 0) && (nflags c .& AllowUnderscore >? 0)
       && (nflags c .& AllowDots >? 0) then "[0-9a-zA-Z_\.\-]+"
    else if (nflags c .& AllowUnderscore >? 0) && (nflags c .& AllowDots >? 0)
    then "[0-9a-zA-Z_\.]+"
    else if (nflags c .& AllowUnderscore >? 0) && (nflags c .& AllowHyphen >? 0)
    then "[0-9a-zA-Z_\-]+"
    else if (nflags c .& AllowDots >? 0) && (nflags c .& AllowHyphen >? 0)
    then "[0-9a-zA-Z\.\-]+"
    else if nflags c .& AllowUnderscore >? 0 then "[0-9a-zA-Z_]+"
    else if nflags c .& AllowDots >? 0 then "[0-9a-zA-Z\.]+"
    else "[0-9a-zA-Z]+"
  else "".

(** The final pattern [reValue], for a single value or for many. *)
Definition reValue (c : CLIFlag) : string :=
  if nflags c .& AllowMany >? 0 then
    let d := if nflags c .& ManySeparatorColon >? 0 then ":"
             else if nflags c .& ManySeparatorSemiColon >? 0 then ";"
             else "," in
    "^" ++ reType c ++ "(" ++ d ++ reType c ++ ")*$"
  else "^" ++ reType c ++ "$".

(** [ValidateValue], run against the file system [w]. *)
Definition ValidateValue (w : os.FileSystem) (c : CLIFlag)
    (isArg : bool) (nz az : string) : outcome error :=
  if nonempty nz && nonempty az then
    Return (errors.New ("Both -" ++ alias c ++ " and --" ++ name c ++ " passed"))
  else
  let label := if isArg then "Argument" else "Flag" in
  let nlabel := if isArg then helpValue c else name c in
  if (nflags c .& Required >? 0) && ((nz =? "")%string && (az =? "")%string)
     && ((nflags c .& TypeString >? 0) || (nflags c .& TypePathFile >? 0)
         || (nflags c .& TypePathRegularFile >? 0) || (nflags c .& TypePathDir >? 0)
         || (nflags c .& TypeInt >? 0) || (nflags c .& TypeFloat >? 0)
         || (nflags c .& TypeAlphanumeric >? 0))
  then Return (errors.New (label ++ " " ++ nlabel ++ " is missing"))
  else
  if nflags c .& TypeString >? 0 then Return nil
  else
  let v := if nonempty nz then nz else az in
  if (nflags c .& Required >? 0) || nonempty v then
    if nflags c .& TypePathFile >? 0 then
      let '(_, err) := os.Stat w v in
      if os.IsNotExist err
      then Return (errors.New ("File " ++ v ++ " from " ++ nlabel ++ " does not exist"))
      else Return nil
    else if nflags c .& TypePathRegularFile >? 0 then
      let '(fileInfo, err) := os.Stat w v in
      if os.IsNotExist err
      then Return (errors.New ("File " ++ v ++ " from " ++ nlabel ++ " does not exist"))
      else
        mode <- FileInfo_Mode fileInfo ;;
        if negb (fs.IsRegular mode)
        then Return (errors.New ("Path " ++ v ++ " from " ++ nlabel ++ " is not a regular file"))
        else if nflags c .& ValidJSON >? 0 then
          let '(dat, err) := os.ReadFile w v in
          match err with
          | nil =>
              if negb (json.Valid dat)
              then Return (errors.New (v ++ " " ++ nlabel ++ " is not a valid JSON"))
              else Return nil
          | _ => Return (errors.New (v ++ " " ++ nlabel ++ " cannot be opened"))
          end
        else Return nil
    else if nflags c .& TypePathDir >? 0 then
      let '(fileInfo, err) := os.Stat w v in
      if os.IsNotExist err
      then Return (errors.New ("Directory " ++ v ++ " from " ++ nlabel ++ " does not exist"))
      else
        isDir <- FileInfo_IsDir fileInfo ;;
        if negb isDir
        then Return (errors.New ("Path " ++ v ++ " from " ++ nlabel ++ " is not a directory"))
        else Return nil
    else
      let '(m, err) := regexp.MatchString (reValue c) v in
      match err with
      | nil =>
          if negb m
          then Return (errors.New (label ++ " " ++ nlabel ++ " has invalid value"))
          else Return nil
      | _ => Return (errors.New (label ++ " " ++ nlabel ++ " has invalid value"))
      end
  else Return nil.

(** * Specification-side definitions *)

(** [has c bit] is the test [c.nflags&bit > 0] of the Go code. *)
Definition has (c : CLIFlag) (bit : Z) : bool := nflags c .& bit >? 0.

(** The effective value [v]: [nz] when it is not empty, else [az]. *)
Definition effective (nz az : string) : string := if nonempty nz then nz else az.

(** The label and the identifier shown in messages. *)
Definition label_of (isArg : bool) : string := if isArg then "Argument" else "Flag".
Definition nlabel_of (c : CLIFlag) (isArg : bool) : string :=
  if isArg then helpValue c else name c.

(** The messages of the validation errors. *)
Definition PatternMismatch (c : CLIFlag) (isArg : bool) : error :=
  errors.New (label_of isArg ++ " " ++ nlabel_of c isArg ++ " has invalid value").
Definition PathNotFound (c : CLIFlag) (isArg : bool) (v : string) : error :=
  errors.New ("File " ++ v ++ " from " ++ nlabel_of c isArg ++ " does not exist").
Definition NotARegularFile (c : CLIFlag) (isArg : bool) (v : string) : error :=
  errors.New ("Path " ++ v ++ " from " ++ nlabel_of c isArg ++ " is not a regular file").
Definition FileUnreadable (c : CLIFlag) (isArg : bool) (v : string) : error :=
  errors.New (v ++ " " ++ nlabel_of c isArg ++ " cannot be opened").
Definition InvalidJSON (c : CLIFlag) (isArg : bool) (v : string) : error :=
  errors.New (v ++ " " ++ nlabel_of c isArg ++ " is not a valid JSON").

(** ** The language of a regular expression

    [lang r bot eot w]: [r] matches the whole of [w], a stretch of the
    text that starts at the begin of the text when [bot] and stops at its
    end when [eot].  The matcher of [regexp] is proved to decide it. *)
Module language.
Import syntax.
Local Open Scope list_scope.

Definition isnil (w : list ascii) : bool :=
  match w with [] => true | _ => false end.

Inductive star_lang (P : bool -> bool -> list ascii -> Prop)
    : bool -> bool -> list ascii -> Prop :=
| star_nil bot eot : star_lang P bot eot []
| star_cons bot eot c w1 w2 :
    P bot (eot && isnil w2) (c :: w1) ->
    star_lang P false eot w2 ->
    star_lang P bot eot (c :: w1 ++ w2).

Fixpoint lang (r : Regexp) (bot eot : bool) (w : list ascii) : Prop :=
  match r with
  | OpNoMatch => False
  | OpEmptyMatch => w = []
  | OpCharClass ranges => exists c, w = [c] /\ regexp.class_mem ranges c = true
  | OpBeginText => w = [] /\ bot = true
  | OpEndText => w = [] /\ eot = true
  | OpConcat r1 r2 =>
      exists w1 w2, w = w1 ++ w2
        /\ lang r1 bot (eot && isnil w2) w1
        /\ lang r2 (bot && isnil w1) eot w2
  | OpAlternate r1 r2 => lang r1 bot eot w \/ lang r2 bot eot w
  | OpStar r1 => star_lang (lang r1) bot eot w
  end.

(** One step of unfolding [lang] at every concatenation in the goal. *)
Ltac unfold_concat :=
  repeat match goal with
  | |- context [lang (OpConcat ?a ?b) ?bot ?eot ?w] =>
      change (lang (OpConcat a b) bot eot w) with
        (exists w1 w2, w = w1 ++ w2 /\ lang a bot (eot && isnil w2) w1
                       /\ lang b (bot && isnil w1) eot w2)
  end.
End language.

(** ** What the specification says a value must look like *)
Module spec.
Import syntax.
Local Open Scope list_scope.

(** The pieces of [w] between the occurrences of the delimiter [d]. *)
Fixpoint split_on (d : ascii) (w : list ascii) : list (list ascii) :=
  match w with
  | [] => [[]]
  | c :: w' =>
      if Ascii.eqb c d then [] :: split_on d w'
      else match split_on d w' with
           | p :: ps => (c :: p) :: ps
           | [] => [[c]]
           end
  end.

(** The pieces [ps], each preceded by the delimiter. *)
Definition joined (d : ascii) (ps : list (list ascii)) : list ascii :=
  concat (map (cons d) ps).

(** The class [[0-9]] as a regular expression. *)
Definition digit : Regexp := OpCharClass [(48, 57)%N].

(** A run of one or more characters of the class [p]. *)
Definition run_of (p : ascii -> bool) (w : list ascii) : bool :=
  negb (language.isnil w) && forallb p w.

(** One or more runs joined by single delimiters. *)
Definition runs_joined (p : ascii -> bool) (d : ascii) (v : string) : bool :=
  forallb (run_of p) (split_on d (list_ascii_of_string v)).

(** Between 1 and 16 digits. *)
Definition digits_1_16 (w : list ascii) : bool :=
  (1 <=? List.length w)%nat && (List.length w <=? 16)%nat && forallb isdigit w.

(** 1-16 digits, a decimal point, 1-16 digits. *)
Definition float_value (v : string) : bool :=
  match split_on "." (list_ascii_of_string v) with
  | [a; b] => digits_1_16 a && digits_1_16 b
  | _ => false
  end.

(** [A-Za-z0-9] extended by the dot, the underscore and the hyphen as
    the three switches say. *)
Definition alnum_extended (dots underscore hyphen : bool) (c : ascii) : bool :=
  isalnum c || (dots && Ascii.eqb c ".") || (underscore && Ascii.eqb c "_")
  || (hyphen && Ascii.eqb c "-").
End spec.

(** ** Reading the type of a flag off its bits

    [ValidateValue] looks at the type bits in a fixed order: [TypeString],
    then the three path types, then [TypeInt], [TypeFloat],
    [TypeAlphanumeric].  A flag is "X-typed" when bit X is set and no bit
    looked at earlier is. *)

(** No path or string type: the value is checked against a pattern. *)
Definition pattern_checked (c : CLIFlag) : bool :=
  negb (has c TypeString) && negb (has c TypePathFile)
  && negb (has c TypePathRegularFile) && negb (has c TypePathDir).

Definition Int_typed (c : CLIFlag) : bool :=
  pattern_checked c && has c TypeInt.

Definition Float_typed (c : CLIFlag) : bool :=
  pattern_checked c && negb (has c TypeInt) && has c TypeFloat.

Definition Alphanumeric_typed (c : CLIFlag) : bool :=
  pattern_checked c && negb (has c TypeInt) && negb (has c TypeFloat)
  && has c TypeAlphanumeric.

(** The type is among [TypeBool], [TypeEmail], [TypeFQDN] (or none). *)
Definition valueless_typed (c : CLIFlag) : bool :=
  pattern_checked c && negb (has c TypeInt) && negb (has c TypeFloat)
  && negb (has c TypeAlphanumeric).

Definition PathRegularFile_typed (c : CLIFlag) : bool :=
  negb (has c TypeString) && negb (has c TypePathFile) && has c TypePathRegularFile.

Definition PathDir_typed (c : CLIFlag) : bool :=
  negb (has c TypeString) && negb (has c TypePathFile)
  && negb (has c TypePathRegularFile) && has c TypePathDir.

Definition PathFile_typed (c : CLIFlag) : bool :=
  negb (has c TypeString) && has c TypePathFile.

(** The exclusivity check passes: not both forms are supplied. *)
Definition exclusive (nz az : string) : bool := negb (nonempty nz && nonempty az).

(** The last character of a string. *)
Fixpoint last_char (s : string) : option ascii :=
  match s with
  | EmptyString => None
  | String c EmptyString => Some c
  | String _ rest => last_char rest
  end.

(** ** Sample flags and file systems *)

Definition sample (n : Z) : CLIFlag :=
  {| name := "input"; alias := "i"; helpValue := "INPUT";
     desc := "the input"; nflags := n |}.

(** The bytes of [{"a":1}] and of [{a:1}]. *)
Definition json_good : list byte := ["{"; x22; "a"; x22; ":"; "1"; "}"]%byte.
Definition json_bad : list byte := ["{"; "a"; ":"; "1"; "}"]%byte.

Definition regular_file : fs.FileInfo := {| fs.mode := 420%N |}.
Definition directory : fs.FileInfo := {| fs.mode := N.lor fs.ModeDir 493%N |}.

(** A file system with two regular files, a directory, and a directory
    that may not be searched. *)
Definition sample_fs : os.FileSystem :=
  {| os.stat := fun path =>
       if (path =? "/srv/good.json")%string then inl regular_file
       else if (path =? "/srv/bad.json")%string then inl regular_file
       else if (path =? "/srv/locked.json")%string then inl regular_file
       else if (path =? "/srv")%string then inl directory
       else if (path =? "/root/secret/key")%string then inr EACCES
       else inr ENOENT;
     os.read := fun path =>
       if (path =? "/srv/good.json")%string then inl json_good
       else if (path =? "/srv/bad.json")%string then inl json_bad
       else if (path =? "/srv/locked.json")%string then inr EACCES
       else if (path =? "/srv")%string then inr EISDIR
       else if (path =? "/root/secret/key")%string then inr EACCES
       else inr ENOENT |}.

(** The same file system seen later, when other paths have changed. *)
Definition sample_fs_later : os.FileSystem :=
  {| os.stat := fun path =>
       if (path =? "/tmp/scratch")%string then inl directory
       else os.stat sample_fs path;
     os.read := fun path =>
       if (path =? "/tmp/scratch")%string then inr EISDIR
       else os.read sample_fs path |}.

(** A Bool-typed flag: [TypeBool] is set and no value-requiring type is. *)
Definition Bool_typed (c : CLIFlag) : bool :=
  has c TypeBool && negb (IsRequireValue c).

(** The bits that [ValidateValue] tests. *)
Definition checked_bits : list Z :=
  [Required; TypeString; TypePathFile; TypePathRegularFile; TypePathDir;
   TypeInt; TypeFloat; TypeAlphanumeric; AllowHyphen; AllowUnderscore;
   AllowDots; AllowMany; ManySeparatorColon; ManySeparatorSemiColon; ValidJSON].

(** ** The help line *)

(** The tab and the newline of the format strings. *)
Definition tab : string := String "009" EmptyString.
Definition newline : string := String "010" EmptyString.

(** [GetHelpLine]; [fmt.Sprintf] with [%s] verbs substitutes the strings
    as they are. *)
Definition GetHelpLine (c : CLIFlag) : string :=
  let s := " " in
  let s := s ++ (if (alias c =? "")%string
                 then " " ++ tab
                 else " -" ++ alias c ++ "," ++ tab) in
  let s := s ++ (" --" ++ name c ++ " " ++ helpValue c ++ " " ++ tab
                 ++ desc c ++ newline) in
  s.

(** How often the character [ch] occurs in [s]. *)
Fixpoint count_char (ch : ascii) (s : string) : nat :=
  match s with
  | EmptyString => O
  | String c rest => (if Ascii.eqb c ch then 1 else 0) + count_char ch rest
  end.

(** ** Lists of values *)

(** The delimiter the bits select: the colon before the semicolon, the
    comma when neither bit is set. *)
Definition separator (c : CLIFlag) : ascii :=
  if has c ManySeparatorColon then ":"%char
  else if has c ManySeparatorSemiColon then ";"%char
  else ","%char.

(** One value or, with [AllowMany], one or more values joined by the
    separator, each satisfying [ok]. *)
Definition values (c : CLIFlag) (ok : list ascii -> bool) (v : string) : bool :=
  if has c AllowMany
  then forallb ok (spec.split_on (separator c) (list_ascii_of_string v))
  else ok (list_ascii_of_string v).

(** 1-16 digits, a decimal point, 1-16 digits, on a list of characters. *)
Definition float_piece (w : list ascii) : bool :=
  match spec.split_on "." w with
  | [a; b] => spec.digits_1_16 a && spec.digits_1_16 b
  | _ => false
  end.

(** The class the code gives an Alphanumeric flag. *)
Definition alnum_class (c : CLIFlag) : ascii -> bool :=
  spec.alnum_extended (has c AllowDots) (has c AllowUnderscore)
    (has c AllowHyphen && (has c AllowUnderscore || has c AllowDots)).

(** [e] is [nil] or a message made by [errors.New]. *)
Definition plain_error (e : error) : bool :=
  match e with
  | nil | errorString _ => true
  | _ => false
  end.

(** The flag [c] with its mask replaced. *)
Definition with_nflags (c : CLIFlag) (n : Z) : CLIFlag :=
  {| name := name c; alias := alias c; helpValue := helpValue c;
     desc := desc c; nflags := n |}.

(** Whether a run passed, failed or panicked, without the wording of the
    error. *)
Definition verdict (o : outcome error) : outcome bool :=
  match o with
  | Return nil => Return true
  | Return _ => Return false
  | Panic msg => Panic msg
  end.

(** [sample_fs] with every file made unreadable. *)
Definition sample_fs_unreadable : os.FileSystem :=
  {| os.stat := os.stat sample_fs; os.read := fun _ => inr EIO |}.

(** The ranges of the bracket class that the chain of conditionals on
    [AllowHyphen], [AllowUnderscore] and [AllowDots] writes. *)
Definition alnum_ranges (c : CLIFlag) : list (N * N) :=
  let base := [(48, 57); (97, 122); (65, 90)]%N in
  if has c AllowHyphen && has c AllowUnderscore && has c AllowDots
  then base ++ [(95, 95); (46, 46); (45, 45)]%N
  else if has c AllowUnderscore && has c AllowDots
  then base ++ [(95, 95); (46, 46)]%N
  else if has c AllowUnderscore && has c AllowHyphen
  then base ++ [(95, 95); (45, 45)]%N
  else if has c AllowDots && has c AllowHyphen
  then base ++ [(46, 46); (45, 45)]%N
  else if has c AllowUnderscore then base ++ [(95, 95)]%N
  else if has c AllowDots then base ++ [(46, 46)]%N
  else base.

(** * Proofs *)

(** ** The matcher decides the language *)
Module regexp_facts.
Import syntax regexp language spec.
Local Open Scope list_scope.
Local Arguments class_mem : simpl never.

Lemma nullable_lang r : forall bot eot,
  nullable bot eot r = true <-> lang r bot eot [].
Proof.
  induction r; intros bot eot; simpl.
  - split; [discriminate | tauto].
  - split; auto.
  - split; [discriminate | intros (c & Hc & _); discriminate].
  - split; [auto | tauto].
  - split; [auto | tauto].
  - rewrite andb_true_iff, IHr1, IHr2. split.
    + intros [H1 H2]. exists [], []. simpl.
      rewrite !andb_true_r. auto.
    + intros (w1 & w2 & Hw & H1 & H2).
      symmetry in Hw. apply app_eq_nil in Hw. destruct Hw; subst.
      simpl in *. rewrite !andb_true_r in *. auto.
  - rewrite orb_true_iff, IHr1, IHr2. tauto.
  - split; [constructor | auto].
Qed.

Lemma der_sound r : forall bot eot c w,
  lang (der bot c r) false eot w -> lang r bot eot (c :: w).
Proof.
  induction r; intros bot eot c w; simpl; try tauto.
  - destruct (class_mem ranges c) eqn:E; simpl; [|tauto].
    intros ->. eauto.
  - assert (Hcat : lang (OpConcat (der bot c r1) r2) false eot w ->
                   lang (OpConcat r1 r2) bot eot (c :: w)).
    { simpl. intros (w1 & w2 & -> & H1 & H2).
      exists (c :: w1), w2. simpl. rewrite andb_false_r. auto. }
    destruct (nullable bot false r1) eqn:E; [|exact Hcat].
    simpl. intros [H | H]; [apply Hcat; exact H|].
    exists [], (c :: w). simpl. rewrite andb_false_r, andb_true_r.
    split; [reflexivity|]. split; [|auto].
    apply nullable_lang. exact E.
  - intros [H | H]; auto.
  - intros (w1 & w2 & -> & H1 & H2). simpl in H2.
    apply star_cons; auto.
Qed.

Lemma der_complete r : forall bot eot c w,
  lang r bot eot (c :: w) -> lang (der bot c r) false eot w.
Proof.
  induction r; intros bot eot c w; simpl; try tauto; try (intros [H _]; discriminate).
  - discriminate.
  - intros (c' & Hc & Hm). injection Hc as -> ->. rewrite Hm. reflexivity.
  - intros (w1 & w2 & Hw & H1 & H2).
    destruct w1 as [|c1 w1]; simpl in Hw.
    + subst w2. simpl in H1, H2. rewrite andb_false_r in H1. rewrite andb_true_r in H2.
      apply nullable_lang in H1. rewrite H1. simpl. right. auto.
    + injection Hw as -> ->. simpl in H2. rewrite andb_false_r in H2.
      assert (Hcat : lang (OpConcat (der bot c1 r1) r2) false eot (w1 ++ w2)).
      { simpl. exists w1, w2. auto. }
      destruct (nullable bot false r1); [left|]; exact Hcat.
  - intros [H | H]; auto.
  - intros H. inversion H; subst.
    exists w1, w2. simpl. auto.
Qed.

Lemma full_lang : forall w r bot,
  full bot r w = true <-> lang r bot true w.
Proof.
  induction w as [|c w IH]; intros r bot; simpl.
  - apply nullable_lang.
  - rewrite IH. split; [apply der_sound | apply der_complete].
Qed.

(** *** Classes and their repetitions *)

Lemma code_inj c d : code c = code d -> c = d.
Proof.
  unfold code. intros H.
  rewrite <- (ascii_N_embedding c), <- (ascii_N_embedding d), H. reflexivity.
Qed.

Lemma class_mem_literal c d : class_mem [(code d, code d)] c = Ascii.eqb c d.
Proof.
  unfold class_mem. cbn [existsb fst snd]. rewrite orb_false_r.
  destruct (Ascii.eqb_spec c d) as [->|Hne].
  - rewrite N.leb_refl. reflexivity.
  - apply andb_false_iff.
    destruct (N.leb_spec (code d) (code c)); [|auto].
    destruct (N.leb_spec (code c) (code d)); [|auto].
    exfalso. apply Hne, code_inj. lia.
Qed.

Lemma class_mem_any c : class_mem [(0, 255)%N] c = true.
Proof.
  unfold class_mem, code. cbn [existsb fst snd]. rewrite orb_false_r.
  pose proof (N_ascii_bounded c).
  apply andb_true_iff. split; apply N.leb_le; lia.
Qed.

Lemma lang_literal d bot eot w :
  lang (literal d) bot eot w <-> w = [d].
Proof.
  unfold literal. simpl. split.
  - intros (c & -> & H). rewrite class_mem_literal in H.
    apply Ascii.eqb_eq in H. subst. reflexivity.
  - intros ->. exists d. rewrite class_mem_literal, Ascii.eqb_refl. auto.
Qed.

Lemma lang_class_star ranges : forall w bot eot,
  lang (OpStar (OpCharClass ranges)) bot eot w <-> forallb (class_mem ranges) w = true.
Proof.
  intros w bot eot. simpl. split.
  - induction 1 as [|bot eot c w1 w2 (c' & Hc & Hm) _ IH]; [reflexivity|].
    injection Hc as -> ->. simpl. rewrite Hm, IH. reflexivity.
  - revert bot. induction w as [|c w IH]; intros bot H; [constructor|].
    simpl in H. apply andb_true_iff in H. destruct H as [Hc Hw].
    apply (star_cons _ bot eot c [] w); [exists c; auto | auto].
Qed.

Lemma forallb_ext {A} (f g : A -> bool) (l : list A) :
  (forall x, f x = g x) -> forallb f l = forallb g l.
Proof.
  intros H. induction l as [|x l IH]; simpl; [reflexivity|].
  rewrite H, IH. reflexivity.
Qed.

Lemma lang_anything w bot eot : lang anything bot eot w.
Proof.
  apply lang_class_star. induction w; simpl; [reflexivity|].
  rewrite class_mem_any. assumption.
Qed.

Lemma lang_class_plus ranges w bot eot :
  lang (plus (OpCharClass ranges)) bot eot w
  <-> run_of (class_mem ranges) w = true.
Proof.
  unfold plus, run_of.
  change (lang (OpConcat ?a ?b) bot eot w) with
    (exists w1 w2, w = w1 ++ w2 /\ lang a bot (eot && isnil w2) w1
                   /\ lang b (bot && isnil w1) eot w2).
  split.
  - intros (w1 & w2 & -> & (c & -> & Hc) & H2).
    apply lang_class_star in H2. simpl. rewrite Hc, H2. reflexivity.
  - destruct w as [|c w]; [discriminate|]. simpl. intros H.
    apply andb_true_iff in H. destruct H as [Hc Hw].
    exists [c], w. split; [reflexivity|]. split; [exists c; auto|].
    apply lang_class_star. exact Hw.
Qed.

Lemma lang_optional_suffix ranges : forall k w bot eot,
  lang (optional_suffix k (OpCharClass ranges)) bot eot w
  <-> (List.length w <= k)%nat /\ forallb (class_mem ranges) w = true.
Proof.
  induction k as [|k IH]; intros w bot eot.
  - simpl. split.
    + intros ->. auto.
    + intros [H _]. destruct w; [reflexivity | simpl in H; lia].
  - destruct k as [|k].
    + simpl. split.
      * intros [(c & -> & Hc) | ->]; simpl; [rewrite Hc|]; auto.
      * intros [Hlen H]. destruct w as [|c [|c' w]]; simpl in *; [auto| |lia].
        left. exists c. rewrite andb_true_r in H. auto.
    + change (optional_suffix (S (S k)) (OpCharClass ranges))
        with (quest (OpConcat (OpCharClass ranges)
                              (optional_suffix (S k) (OpCharClass ranges)))).
      unfold quest.
      change (lang (OpAlternate ?a OpEmptyMatch) bot eot w)
        with (lang a bot eot w \/ w = []).
      change (lang (OpConcat ?a ?b) bot eot w) with
        (exists w1 w2, w = w1 ++ w2 /\ lang a bot (eot && isnil w2) w1
                       /\ lang b (bot && isnil w1) eot w2).
      split.
      * intros [(w1 & w2 & -> & (c & -> & Hc) & H2) | ->]; [|simpl; split; [lia|auto]].
        apply IH in H2. destruct H2 as [Hlen Hall].
        simpl. rewrite Hc, Hall. split; [lia|auto].
      * intros [Hlen H]. destruct w as [|c w]; [auto|]. left.
        simpl in H, Hlen. apply andb_true_iff in H. destruct H as [Hc Hw].
        exists [c], w. split; [reflexivity|]. split; [exists c; auto|].
        apply IH. split; [lia|auto].
Qed.

(** *** Splitting at a delimiter *)

Lemma split_on_joined d : forall w,
  exists p ps, split_on d w = p :: ps /\ w = p ++ joined d ps.
Proof.
  induction w as [|c w (p & ps & Hs & Hw)]; simpl.
  - exists [], []. auto.
  - destruct (Ascii.eqb_spec c d) as [->|Hne].
    + exists [], (p :: ps). rewrite Hs. split; [reflexivity|].
      unfold joined. simpl. rewrite Hw. reflexivity.
    + rewrite Hs. exists (c :: p), ps. split; [reflexivity|].
      simpl. rewrite Hw. reflexivity.
Qed.

Lemma split_on_app d : forall p rest,
  forallb (fun c => negb (Ascii.eqb c d)) p = true ->
  split_on d (p ++ d :: rest) = p :: split_on d rest.
Proof.
  induction p as [|c p IH]; intros rest H; simpl.
  - rewrite Ascii.eqb_refl. reflexivity.
  - simpl in H. apply andb_true_iff in H. destruct H as [Hc Hp].
    apply negb_true_iff in Hc. rewrite Hc, IH by assumption. reflexivity.
Qed.

Lemma split_on_none d : forall p,
  forallb (fun c => negb (Ascii.eqb c d)) p = true ->
  split_on d p = [p].
Proof.
  induction p as [|c p IH]; intros H; simpl; [reflexivity|].
  simpl in H. apply andb_true_iff in H. destruct H as [Hc Hp].
  apply negb_true_iff in Hc. rewrite Hc, IH by assumption. reflexivity.
Qed.

Lemma split_on_pieces d : forall ps p,
  forallb (forallb (fun c => negb (Ascii.eqb c d))) (p :: ps) = true ->
  split_on d (p ++ joined d ps) = p :: ps.
Proof.
  induction ps as [|q ps IH]; intros p H.
  - unfold joined. simpl. rewrite app_nil_r. apply split_on_none.
    simpl in H. rewrite andb_true_r in H. exact H.
  - simpl in H. apply andb_true_iff in H. destruct H as [Hp Hps].
    unfold joined. simpl. fold (joined d ps).
    rewrite split_on_app by assumption. rewrite IH; auto.
Qed.

(** *** Searching for an anchored pattern *)

Lemma isnil_true w : isnil w = true -> w = [].
Proof. destruct w; [reflexivity | discriminate]. Qed.

Lemma search_anchored T w :
  lang (searched (OpConcat OpBeginText T)) true true w
  <-> exists w1 w2, w = w1 ++ w2 /\ lang T true (isnil w2) w1.
Proof.
  unfold searched. unfold_concat. cbn [lang]. split.
  - intros (a & mz & -> & _ & m & z & -> & (p & t & -> & [-> Ha] & Ht) & _).
    simpl in Ha. apply isnil_true in Ha. subst a.
    simpl in Ht. exists t, z. auto.
  - intros (t & z & -> & Ht).
    exists [], (t ++ z). split; [reflexivity|]. split; [apply lang_anything|].
    exists t, z. split; [reflexivity|]. split; [|apply lang_anything].
    exists [], t. simpl. auto.
Qed.

Lemma lang_then_end X bot eot w :
  lang (OpConcat X OpEndText) bot eot w <-> eot = true /\ lang X bot true w.
Proof.
  unfold_concat. cbn [lang]. split.
  - intros (x & z & -> & Hx & -> & ->). rewrite app_nil_r. auto.
  - intros [-> Hx]. exists w, []. rewrite app_nil_r. auto.
Qed.

(** A pattern [^X$] is searched for by matching [X] against the whole
    text. *)
Lemma search_whole X w :
  lang (searched (OpConcat OpBeginText (OpConcat X OpEndText))) true true w
  <-> lang X true true w.
Proof.
  rewrite search_anchored. split.
  - intros (w1 & w2 & -> & H). apply lang_then_end in H. destruct H as [Hz Hx].
    apply isnil_true in Hz. subst. rewrite app_nil_r. exact Hx.
  - intros H. exists w, []. rewrite app_nil_r. split; [reflexivity|].
    apply lang_then_end. auto.
Qed.

(** [^X1 X2$], parsed as a right-nested concatenation. *)
Lemma search_whole2 X1 X2 w :
  lang (searched (OpConcat OpBeginText (OpConcat X1 (OpConcat X2 OpEndText)))) true true w
  <-> lang (OpConcat X1 X2) true true w.
Proof.
  rewrite search_anchored. unfold_concat. split.
  - intros (w1 & w2 & -> & x1 & r & -> & H1 & H2).
    apply lang_then_end in H2. destruct H2 as [Hz H2].
    apply isnil_true in Hz. subst. rewrite app_nil_r.
    exists x1, r. auto.
  - intros (x1 & x2 & -> & H1 & H2). exists (x1 ++ x2), [].
    rewrite app_nil_r. split; [reflexivity|].
    exists x1, x2. split; [reflexivity|]. split; [exact H1|].
    apply lang_then_end. auto.
Qed.

(** [^X1 X2 X3$]. *)
Lemma search_whole3 X1 X2 X3 w :
  lang (searched (OpConcat OpBeginText
          (OpConcat X1 (OpConcat X2 (OpConcat X3 OpEndText))))) true true w
  <-> lang (OpConcat X1 (OpConcat X2 X3)) true true w.
Proof.
  rewrite search_anchored. unfold_concat. split.
  - intros (w1 & w2 & -> & x1 & r & -> & H1 & x2 & r' & -> & H2 & H3).
    apply lang_then_end in H3. destruct H3 as [Hz H3].
    apply isnil_true in Hz. subst. rewrite app_nil_r.
    exists x1, (x2 ++ r'). split; [reflexivity|]. split; [exact H1|].
    exists x2, r'. auto.
  - intros (x1 & r & -> & H1 & x2 & x3 & -> & H2 & H3).
    exists (x1 ++ x2 ++ x3), []. rewrite app_nil_r. split; [reflexivity|].
    exists x1, (x2 ++ x3). split; [reflexivity|]. split; [exact H1|].
    exists x2, x3. split; [reflexivity|]. split; [exact H2|].
    apply lang_then_end. auto.
Qed.

Lemma search_empty w :
  full true (searched (OpConcat OpBeginText OpEndText)) w = isnil w.
Proof.
  apply eq_iff_eq_true. rewrite full_lang, search_anchored. cbn [lang]. split.
  - intros (w1 & w2 & -> & -> & H). apply isnil_true in H. subst. reflexivity.
  - intros H. apply isnil_true in H. subst. exists [], []. auto.
Qed.

(** [^[class]+$]: a run of the class. *)
Lemma search_run ranges w :
  full true (searched (OpConcat OpBeginText
      (OpConcat (plus (OpCharClass ranges)) OpEndText))) w
  = run_of (class_mem ranges) w.
Proof.
  apply eq_iff_eq_true. rewrite full_lang, search_whole. apply lang_class_plus.
Qed.

(** [^(d)*$]: delimiters only. *)
Lemma search_delimiters d w :
  full true (searched (OpConcat OpBeginText
      (OpConcat (star (literal d)) OpEndText))) w
  = forallb (fun c => Ascii.eqb c d) w.
Proof.
  apply eq_iff_eq_true. rewrite full_lang, search_whole.
  unfold star, literal. rewrite lang_class_star.
  rewrite (forallb_ext _ (fun c => Ascii.eqb c d) w (fun c => class_mem_literal c d)).
  reflexivity.
Qed.

(** *** One or more runs joined by a delimiter *)

Lemma lang_concat a b bot eot w :
  lang (OpConcat a b) bot eot w
  <-> exists w1 w2, w = w1 ++ w2 /\ lang a bot (eot && isnil w2) w1
                    /\ lang b (bot && isnil w1) eot w2.
Proof. reflexivity. Qed.

Lemma lang_star r bot eot w :
  lang (OpStar r) bot eot w <-> star_lang (lang r) bot eot w.
Proof. reflexivity. Qed.

Lemma lang_star_cons r bot eot c w1 w2 :
  lang r bot (eot && isnil w2) (c :: w1) ->
  lang (OpStar r) false eot w2 ->
  lang (OpStar r) bot eot (c :: w1 ++ w2).
Proof. intros H1 H2. apply star_cons; assumption. Qed.

Lemma lang_delimited_runs ranges d : forall w bot eot,
  lang (star (OpConcat (literal d) (plus (OpCharClass ranges)))) bot eot w
  <-> exists ps, w = joined d ps /\ forallb (run_of (class_mem ranges)) ps = true.
Proof.
  intros w bot eot. unfold star. split.
  - intros H. apply lang_star in H.
    induction H as [|bot eot c w1 w2 H1 _ (ps & -> & Hps)].
    + exists []. auto.
    + apply lang_concat in H1. destruct H1 as (x & y & Hxy & Hx & Hy).
      apply lang_literal in Hx. subst x. injection Hxy as -> ->.
      apply lang_class_plus in Hy.
      exists (y :: ps). unfold joined. simpl. rewrite Hy, Hps. auto.
  - intros (ps & -> & Hps). revert bot.
    induction ps as [|y ps IH]; intros bot; [constructor|].
    simpl in Hps. apply andb_true_iff in Hps. destruct Hps as [Hy Hps].
    apply (lang_star_cons _ bot eot d y (joined d ps)); [|apply IH; exact Hps].
    apply lang_concat. exists [d], y. split; [reflexivity|].
    split; [apply lang_literal; reflexivity | apply lang_class_plus; exact Hy].
Qed.

Lemma run_without ranges d p :
  class_mem ranges d = false ->
  run_of (class_mem ranges) p = true ->
  forallb (fun c => negb (Ascii.eqb c d)) p = true.
Proof.
  intros Hd H. unfold run_of in H. apply andb_true_iff in H. destruct H as [_ H].
  rewrite forallb_forall in *. intros c Hc. specialize (H c Hc).
  destruct (Ascii.eqb_spec c d) as [->|]; [congruence | reflexivity].
Qed.

Lemma runs_without ranges d ps :
  class_mem ranges d = false ->
  forallb (run_of (class_mem ranges)) ps = true ->
  forallb (forallb (fun c => negb (Ascii.eqb c d))) ps = true.
Proof.
  intros Hd H. rewrite forallb_forall in *. intros p Hp.
  eapply run_without; eauto.
Qed.

(** [^[class]+(d[class]+)*$]: runs of the class joined by [d]. *)
Lemma search_runs_joined ranges d w :
  class_mem ranges d = false ->
  full true (searched (OpConcat OpBeginText
      (OpConcat (plus (OpCharClass ranges))
         (OpConcat (star (OpConcat (literal d) (plus (OpCharClass ranges))))
            OpEndText)))) w
  = forallb (run_of (class_mem ranges)) (split_on d w).
Proof.
  intros Hd. apply eq_iff_eq_true. rewrite full_lang, search_whole2.
  unfold_concat. split.
  - intros (p & r & -> & Hp & Hr).
    apply lang_class_plus in Hp. apply lang_delimited_runs in Hr.
    destruct Hr as (ps & -> & Hps).
    rewrite split_on_pieces.
    + simpl. rewrite Hp, Hps. reflexivity.
    + simpl. rewrite (run_without _ _ _ Hd Hp), (runs_without _ _ _ Hd Hps).
      reflexivity.
  - intros H. destruct (split_on_joined d w) as (p & ps & Hs & ->).
    rewrite Hs in H. simpl in H. apply andb_true_iff in H. destruct H as [Hp Hps].
    exists p, (joined d ps). split; [reflexivity|].
    split; [apply lang_class_plus; exact Hp|].
    apply lang_delimited_runs. exists ps. auto.
Qed.

(** *** Floats *)

Lemma class_mem_digit c : class_mem [(48, 57)%N] c = isdigit c.
Proof. unfold class_mem, isdigit. cbn [existsb fst snd]. apply orb_false_r. Qed.

Lemma lang_digits_1_16 w bot eot :
  lang (OpConcat digit (optional_suffix 15 digit)) bot eot w
  <-> digits_1_16 w = true.
Proof.
  unfold_concat. unfold digits_1_16, digit.
  rewrite !andb_true_iff, !Nat.leb_le.
  rewrite <- (forallb_ext _ _ w class_mem_digit). split.
  - intros (x & y & -> & (c & -> & Hc) & Hy).
    apply lang_optional_suffix in Hy. destruct Hy as [Hlen Hy].
    simpl. rewrite Hc, Hy. repeat split; lia.
  - intros [[H1 H16] H]. destruct w as [|c w]; [simpl in H1; lia|].
    simpl in H, H16. apply andb_true_iff in H. destruct H as [Hc Hw].
    exists [c], w. split; [reflexivity|]. split; [exists c; auto|].
    apply lang_optional_suffix. split; [lia | exact Hw].
Qed.

Lemma digits_without_point w :
  digits_1_16 w = true -> forallb (fun c => negb (Ascii.eqb c ".")) w = true.
Proof.
  unfold digits_1_16. rewrite !andb_true_iff. intros [_ H].
  rewrite forallb_forall in *. intros c Hc. specialize (H c Hc).
  destruct (Ascii.eqb_spec c ".") as [->|]; [discriminate | reflexivity].
Qed.

Local Arguments lang : simpl never.
Local Arguments optional_suffix : simpl never.

(** [^[0-9]{1,16}\.[0-9]{1,16}$]. *)
Lemma search_float w :
  full true (searched (OpConcat OpBeginText
      (OpConcat (OpConcat digit (optional_suffix 15 digit))
         (OpConcat (literal ".")
            (OpConcat (OpConcat digit (optional_suffix 15 digit)) OpEndText))))) w
  = match split_on "." w with
    | [a; b] => digits_1_16 a && digits_1_16 b
    | _ => false
    end.
Proof.
  apply eq_iff_eq_true. rewrite full_lang, search_whole3. split.
  - intros H. apply lang_concat in H. destruct H as (a & r & -> & Ha & Hr).
    apply lang_digits_1_16 in Ha.
    apply lang_concat in Hr. destruct Hr as (p & b & -> & Hp & Hb).
    apply lang_literal in Hp. subst p. apply lang_digits_1_16 in Hb.
    change (["."%char] ++ b) with ("."%char :: b).
    rewrite split_on_app by (apply digits_without_point; exact Ha).
    rewrite split_on_none by (apply digits_without_point; exact Hb).
    rewrite Ha, Hb. reflexivity.
  - intros H. destruct (split_on_joined "." w) as (a & ps & Hs & ->).
    rewrite Hs in H. destruct ps as [|b [|? ?]]; try discriminate.
    apply andb_true_iff in H. destruct H as [Ha Hb].
    apply lang_concat. exists a, ("."%char :: b).
    split; [unfold joined; simpl; rewrite app_nil_r; reflexivity|].
    split; [apply lang_digits_1_16; exact Ha|].
    apply lang_concat. exists ["."%char], b. split; [reflexivity|].
    split; [apply lang_literal; reflexivity | apply lang_digits_1_16; exact Hb].
Qed.

End regexp_facts.

(** ** The patterns [ValidateValue] builds *)
Module pattern_facts.
Import syntax regexp language spec regexp_facts.
Local Arguments class_mem : simpl never.

Lemma MatchString_parsed pattern re v :
  Parse pattern = inl re ->
  MatchString pattern v = (full true (searched re) (list_ascii_of_string v), nil).
Proof. unfold MatchString. intros ->. reflexivity. Qed.

Lemma run_of_ext (p q : ascii -> bool) w :
  (forall c, p c = q c) -> run_of p w = run_of q w.
Proof. intros H. unfold run_of. rewrite (forallb_ext p q w H). reflexivity. Qed.

Lemma runs_ext (p q : ascii -> bool) ws :
  (forall c, p c = q c) -> forallb (run_of p) ws = forallb (run_of q) ws.
Proof. intros H. apply forallb_ext. intros w. apply run_of_ext, H. Qed.

(** [^[0-9]+(,[0-9]+)*$] accepts the runs of digits joined by commas. *)
Lemma MatchString_ints v :
  MatchString "^[0-9]+(,[0-9]+)*$" v = (runs_joined isdigit "," v, nil).
Proof.
  rewrite (MatchString_parsed _
    (OpConcat OpBeginText (OpConcat (plus digit)
       (OpConcat (star (OpConcat (literal ",") (plus digit))) OpEndText))))
    by reflexivity.
  unfold digit. rewrite search_runs_joined by reflexivity.
  unfold runs_joined. rewrite (runs_ext _ isdigit _ class_mem_digit). reflexivity.
Qed.

(** [^[0-9]{1,16}\.[0-9]{1,16}$] accepts 1-16 digits, a point, 1-16
    digits. *)
Lemma MatchString_float v :
  MatchString "^[0-9]{1,16}\.[0-9]{1,16}$" v = (float_value v, nil).
Proof.
  rewrite (MatchString_parsed _
    (OpConcat OpBeginText
      (OpConcat (OpConcat digit (optional_suffix 15 digit))
         (OpConcat (literal ".")
            (OpConcat (OpConcat digit (optional_suffix 15 digit)) OpEndText)))))
    by reflexivity.
  rewrite search_float. reflexivity.
Qed.

(** [^[class]+$] accepts the runs of the class. *)
Lemma MatchString_run pattern ranges v :
  Parse pattern = inl (OpConcat OpBeginText
                         (OpConcat (plus (OpCharClass ranges)) OpEndText)) ->
  MatchString pattern v = (run_of (class_mem ranges) (list_ascii_of_string v), nil).
Proof.
  intros H. rewrite (MatchString_parsed _ _ _ H), search_run. reflexivity.
Qed.

(** [^$] accepts the empty string only. *)
Lemma MatchString_empty v : MatchString "^$" v = ((v =? "")%string, nil).
Proof.
  rewrite (MatchString_parsed _ (OpConcat OpBeginText OpEndText)) by reflexivity.
  rewrite search_empty. destruct v; reflexivity.
Qed.

(** [^(d)*$] accepts the strings of delimiters. *)
Lemma MatchString_delimiters pattern d v :
  Parse pattern = inl (OpConcat OpBeginText
                         (OpConcat (star (literal d)) OpEndText)) ->
  MatchString pattern v
  = (forallb (fun c => Ascii.eqb c d) (list_ascii_of_string v), nil).
Proof.
  intros H. rewrite (MatchString_parsed _ _ _ H), search_delimiters. reflexivity.
Qed.

End pattern_facts.

(** ** [ValidateValue] *)

Import spec pattern_facts.

(** Splits the boolean reading of a flag's type into facts on its bits. *)
Ltac flag_bits :=
  unfold Int_typed, Float_typed, Alphanumeric_typed, valueless_typed,
    PathRegularFile_typed, PathDir_typed, PathFile_typed, pattern_checked,
    exclusive in *;
  repeat match goal with
  | H : _ && _ = true |- _ => apply andb_true_iff in H; destruct H
  | H : negb _ = true |- _ => apply negb_true_iff in H
  end;
  unfold has in *.

Lemma nonempty_effective nz az :
  nonempty (effective nz az) = true -> ((nz =? "") && (az =? ""))%string = false.
Proof.
  unfold effective, nonempty.
  destruct (nz =? "")%string; simpl; [|reflexivity].
  intros H. apply negb_true_iff in H. exact H.
Qed.

(** A flag without a string or path type and with a value supplied is
    judged by its pattern alone. *)
Lemma ValidateValue_pattern w c isArg nz az :
  exclusive nz az = true ->
  pattern_checked c = true ->
  nonempty (effective nz az) = true ->
  ValidateValue w c isArg nz az
  = Return (if fst (regexp.MatchString (reValue c) (effective nz az))
            then nil else PatternMismatch c isArg).
Proof.
  intros Hx Hp Hv. pose proof (nonempty_effective _ _ Hv) as He.
  flag_bits. unfold ValidateValue.
  rewrite Hx, He, andb_false_r. cbn [andb].
  fold (effective nz az).
  repeat match goal with H : (_ >? 0) = false |- _ => rewrite H; clear H end.
  rewrite Hv, orb_true_r.
  unfold regexp.MatchString.
  destruct (syntax.Parse (reValue c)) as [re|code]; cbn [fst]; [|reflexivity].
  destruct (regexp.full _ _ _); reflexivity.
Qed.

(** A flag that is not required and gets no value passes, whatever its
    type. *)
Lemma ValidateValue_absent w c isArg :
  has c Required = false ->
  ValidateValue w c isArg "" "" = Return nil.
Proof.
  unfold has, ValidateValue. intros ->. cbn.
  destruct (nflags c .& TypeString >? 0); reflexivity.
Qed.

Lemma reValue_valueless c :
  valueless_typed c = true ->
  reValue c = "^$" \/ reValue c = "^(:)*$" \/ reValue c = "^(;)*$" \/ reValue c = "^(,)*$".
Proof.
  intros H. flag_bits. unfold reValue, reType.
  repeat match goal with H : (_ >? 0) = false |- _ => rewrite H; clear H end.
  destruct (nflags c .& AllowMany >? 0); [|auto].
  destruct (nflags c .& ManySeparatorColon >? 0); [auto|].
  destruct (nflags c .& ManySeparatorSemiColon >? 0); auto.
Qed.

Lemma not_IsRequireValue c :
  IsRequireValue c = false -> valueless_typed c = true.
Proof.
  unfold IsRequireValue, valueless_typed, pattern_checked, has. intros H.
  repeat (apply orb_false_iff in H; destruct H as [H ?]).
  repeat match goal with H : (_ >? 0) = false |- _ => rewrite H; clear H end.
  reflexivity.
Qed.

(** A required flag with no value-requiring type and no value passes:
    its pattern accepts the empty string. *)
Lemma ValidateValue_valueless_empty w c isArg :
  IsRequireValue c = false ->
  ValidateValue w c isArg "" "" = Return nil.
Proof.
  intros Hreq. pose proof (not_IsRequireValue c Hreq) as Hv.
  pose proof (reValue_valueless c Hv) as Hre.
  unfold IsRequireValue in Hreq. flag_bits. unfold ValidateValue.
  rewrite Hreq, andb_false_r. cbn [nonempty String.eqb negb andb].
  repeat match goal with H : (_ >? 0) = false |- _ => rewrite H; clear H end.
  rewrite orb_false_r.
  destruct (nflags c .& Required >? 0); [|reflexivity].
  destruct Hre as [-> | [-> | [-> | ->]]]; reflexivity.
Qed.

(** C3: when both the long and the short form carry a value, the result
    is the conflicting-forms error naming the alias and the name,
    whatever the constraint bits, [isArg] and the file system are. *)
Theorem C3_conflicting_forms w c isArg nz az :
  nz <> "" -> az <> "" ->
  ValidateValue w c isArg nz az
  = Return (errors.New ("Both -" ++ alias c ++ " and --" ++ name c ++ " passed")).
Proof.
  intros Hn Ha. unfold ValidateValue, nonempty.
  apply String.eqb_neq in Hn, Ha. rewrite Hn, Ha. reflexivity.
Qed.

Lemma C3_conflicting_forms_witness :
  "in.txt" <> "" /\ "other.txt" <> ""
  /\ ValidateValue sample_fs (sample (Required + TypePathFile)) false "in.txt" "other.txt"
     = Return (errors.New "Both -i and --input passed").
Proof.
  split; [discriminate|]. split; [discriminate|].
  apply (C3_conflicting_forms sample_fs (sample (Required + TypePathFile)) false
           "in.txt" "other.txt"); discriminate.
Defined.

(** C4: a required flag of a value-requiring type that gets no value in
    either form yields the missing-value error, which reads "Flag" and the
    name for a flag and "Argument" and the help placeholder for a
    positional argument; a required Bool-typed flag with no value yields
    no error. *)
Theorem C4_missing_required w c :
  has c Required = true ->
  (IsRequireValue c = true ->
     ValidateValue w c false "" ""
       = Return (errors.New ("Flag " ++ name c ++ " is missing"))
     /\ ValidateValue w c true "" ""
       = Return (errors.New ("Argument " ++ helpValue c ++ " is missing")))
  /\ (Bool_typed c = true ->
      forall isArg, ValidateValue w c isArg "" "" = Return nil).
Proof.
  intros Hr. split.
  - intros Hv. unfold has, IsRequireValue in *. unfold ValidateValue.
    rewrite Hr, Hv. split; reflexivity.
  - intros Hb isArg. unfold Bool_typed in Hb.
    apply andb_true_iff in Hb. destruct Hb as [_ Hb]. apply negb_true_iff in Hb.
    apply ValidateValue_valueless_empty. exact Hb.
Qed.

Lemma C4_missing_required_witness :
  has (sample (Required + TypeInt)) Required = true
  /\ IsRequireValue (sample (Required + TypeInt)) = true
  /\ ValidateValue sample_fs (sample (Required + TypeInt)) false "" ""
     = Return (errors.New "Flag input is missing")
  /\ ValidateValue sample_fs (sample (Required + TypeInt)) true "" ""
     = Return (errors.New "Argument INPUT is missing")
  /\ Bool_typed (sample (Required + TypeBool)) = true
  /\ ValidateValue sample_fs (sample (Required + TypeBool)) false "" "" = Return nil.
Proof.
  split; [reflexivity|]. split; [reflexivity|].
  split; [apply (C4_missing_required sample_fs (sample (Required + TypeInt)));
          reflexivity|].
  split; [apply (C4_missing_required sample_fs (sample (Required + TypeInt)));
          reflexivity|].
  split; [reflexivity|].
  apply (C4_missing_required sample_fs (sample (Required + TypeBool))); reflexivity.
Defined.

Lemma reValue_ints c :
  Int_typed c = true -> has c AllowMany = true ->
  has c ManySeparatorColon = false -> has c ManySeparatorSemiColon = false ->
  reValue c = "^[0-9]+(,[0-9]+)*$".
Proof.
  intros Ht Hm Hc Hs. flag_bits. unfold reValue, reType.
  rewrite Hm, Hc, Hs.
  repeat match goal with H : (_ >? 0) = true |- _ => rewrite H; clear H end.
  reflexivity.
Qed.

(** C5: for an Int-typed flag with [AllowMany] and neither separator bit,
    a supplied value passes exactly when it is one or more runs of one or
    more digits joined by single commas, and is rejected with the
    invalid-value error otherwise; so ["42"] and ["42,7,100"] pass and
    ["42,"] and ["4.2"] are rejected. *)
Theorem C5_int_list w c isArg :
  Int_typed c = true -> has c AllowMany = true ->
  has c ManySeparatorColon = false -> has c ManySeparatorSemiColon = false ->
  (forall nz az,
     exclusive nz az = true -> nonempty (effective nz az) = true ->
     ValidateValue w c isArg nz az
     = Return (if runs_joined syntax.isdigit "," (effective nz az)
               then nil
               else errors.New (label_of isArg ++ " " ++ nlabel_of c isArg
                                ++ " has invalid value")))
  /\ ValidateValue w c isArg "42" "" = Return nil
  /\ ValidateValue w c isArg "42,7,100" "" = Return nil
  /\ ValidateValue w c isArg "42," "" = Return (PatternMismatch c isArg)
  /\ ValidateValue w c isArg "4.2" "" = Return (PatternMismatch c isArg).
Proof.
  intros Ht Hm Hc Hs.
  assert (Hgen : forall nz az,
     exclusive nz az = true -> nonempty (effective nz az) = true ->
     ValidateValue w c isArg nz az
     = Return (if runs_joined syntax.isdigit "," (effective nz az)
               then nil else PatternMismatch c isArg)).
  { intros nz az Hx Hv. rewrite ValidateValue_pattern; auto.
    - rewrite (reValue_ints c Ht Hm Hc Hs), MatchString_ints. reflexivity.
    - unfold Int_typed in Ht.
      destruct (pattern_checked c); [reflexivity | discriminate]. }
  split; [exact Hgen|].
  repeat split; rewrite Hgen; reflexivity.
Qed.

Lemma C5_int_list_witness :
  Int_typed (sample (TypeInt + AllowMany)) = true
  /\ has (sample (TypeInt + AllowMany)) AllowMany = true
  /\ has (sample (TypeInt + AllowMany)) ManySeparatorColon = false
  /\ has (sample (TypeInt + AllowMany)) ManySeparatorSemiColon = false
  /\ ValidateValue sample_fs (sample (TypeInt + AllowMany)) false "" "42,7,100"
     = Return nil
  /\ ValidateValue sample_fs (sample (TypeInt + AllowMany)) false "42," ""
     = Return (errors.New "Flag input has invalid value").
Proof.
  do 4 (split; [reflexivity|]).
  pose proof (C5_int_list sample_fs (sample (TypeInt + AllowMany)) false
                eq_refl eq_refl eq_refl eq_refl) as (Hgen & _ & _ & Hbad & _).
  split; [apply (Hgen "" "42,7,100"); reflexivity | exact Hbad].
Defined.

Lemma reValue_float c :
  Float_typed c = true -> has c AllowMany = false ->
  reValue c = "^[0-9]{1,16}\.[0-9]{1,16}$".
Proof.
  intros Ht Hm. flag_bits. unfold reValue, reType.
  rewrite Hm.
  repeat match goal with H : (_ >? 0) = _ |- _ => rewrite H; clear H end.
  reflexivity.
Qed.

(** C6: for a Float-typed flag without [AllowMany], a supplied value
    passes exactly when it is 1-16 digits, a decimal point and 1-16
    digits, and is rejected with the invalid-value error otherwise; so
    ["3.14"] passes, ["3"] is rejected, and no value passes when the flag
    is not required. *)
Theorem C6_float w c isArg :
  Float_typed c = true -> has c AllowMany = false ->
  (forall nz az,
     exclusive nz az = true -> nonempty (effective nz az) = true ->
     ValidateValue w c isArg nz az
     = Return (if float_value (effective nz az)
               then nil
               else errors.New (label_of isArg ++ " " ++ nlabel_of c isArg
                                ++ " has invalid value")))
  /\ ValidateValue w c isArg "3.14" "" = Return nil
  /\ ValidateValue w c isArg "3" "" = Return (PatternMismatch c isArg)
  /\ (has c Required = false -> ValidateValue w c isArg "" "" = Return nil).
Proof.
  intros Ht Hm.
  assert (Hgen : forall nz az,
     exclusive nz az = true -> nonempty (effective nz az) = true ->
     ValidateValue w c isArg nz az
     = Return (if float_value (effective nz az)
               then nil else PatternMismatch c isArg)).
  { intros nz az Hx Hv. rewrite ValidateValue_pattern; auto.
    - rewrite (reValue_float c Ht Hm), MatchString_float. reflexivity.
    - unfold Float_typed in Ht.
      destruct (pattern_checked c); [reflexivity | discriminate]. }
  split; [exact Hgen|].
  split; [rewrite Hgen; reflexivity|].
  split; [rewrite Hgen; reflexivity|].
  apply ValidateValue_absent.
Qed.

Lemma C6_float_witness :
  Float_typed (sample TypeFloat) = true
  /\ has (sample TypeFloat) AllowMany = false
  /\ has (sample TypeFloat) Required = false
  /\ ValidateValue sample_fs (sample TypeFloat) true "" "3.14" = Return nil
  /\ ValidateValue sample_fs (sample TypeFloat) true "3" ""
     = Return (errors.New "Argument INPUT has invalid value")
  /\ ValidateValue sample_fs (sample TypeFloat) true "" "" = Return nil.
Proof.
  do 3 (split; [reflexivity|]).
  pose proof (C6_float sample_fs (sample TypeFloat) true eq_refl eq_refl)
    as (Hgen & _ & Hbad & Habsent).
  split; [apply (Hgen "" "3.14"); reflexivity|].
  split; [exact Hbad | apply Habsent; reflexivity].
Defined.

(** *** Flags of the types that have no pattern *)

(** With none of [TypeInt], [TypeFloat], [TypeAlphanumeric] set, [reType]
    stays empty and the pattern is [^$]: every supplied value is
    rejected. *)
Lemma ValidateValue_valueless w c isArg nz az :
  valueless_typed c = true -> has c AllowMany = false ->
  exclusive nz az = true -> nonempty (effective nz az) = true ->
  ValidateValue w c isArg nz az = Return (PatternMismatch c isArg).
Proof.
  intros Ht Hm Hx Hv. rewrite ValidateValue_pattern; auto.
  - assert (Hre : reValue c = "^$").
    { flag_bits. unfold reValue, reType. rewrite Hm.
      repeat match goal with H : (_ >? 0) = false |- _ => rewrite H; clear H end.
      reflexivity. }
    rewrite Hre, MatchString_empty. cbn [fst].
    unfold nonempty in Hv. apply negb_true_iff in Hv. rewrite Hv. reflexivity.
  - unfold valueless_typed in Ht.
    destruct (pattern_checked c); [reflexivity | discriminate].
Qed.

(** C1 (the code departs from it): a flag whose only type bit is
    [TypeEmail], [TypeFQDN] or [TypeBool] and that is given a value is
    rejected with the invalid-value error, on every file system. *)
Theorem C1_valueless_types_reject_values w :
  ValidateValue w (sample TypeEmail) false "user@example.com" ""
    = Return (errors.New "Flag input has invalid value")
  /\ ValidateValue w (sample TypeFQDN) false "" "example.com"
    = Return (errors.New "Flag input has invalid value")
  /\ ValidateValue w (sample TypeBool) false "true" ""
    = Return (errors.New "Flag input has invalid value").
Proof.
  repeat split;
    apply (ValidateValue_valueless w (sample _) false); reflexivity.
Qed.

(** *** Alphanumeric flags *)

(** The class the code gives an Alphanumeric flag: the dot and the
    underscore follow their bits; the hyphen is in the class only when
    [AllowHyphen] comes with [AllowUnderscore] or [AllowDots]. *)
Lemma ValidateValue_alphanumeric w c isArg nz az :
  Alphanumeric_typed c = true -> has c AllowMany = false ->
  exclusive nz az = true -> nonempty (effective nz az) = true ->
  ValidateValue w c isArg nz az
  = Return (if run_of (alnum_extended (has c AllowDots) (has c AllowUnderscore)
                         (has c AllowHyphen
                          && (has c AllowUnderscore || has c AllowDots)))
                      (list_ascii_of_string (effective nz az))
            then nil else PatternMismatch c isArg).
Proof.
  intros Ht Hm Hx Hv. rewrite ValidateValue_pattern; auto.
  - assert (Hre : exists ranges,
        syntax.Parse (reValue c)
        = inl (syntax.OpConcat syntax.OpBeginText
                 (syntax.OpConcat (syntax.plus (syntax.OpCharClass ranges))
                    syntax.OpEndText))
        /\ forall ch, regexp.class_mem ranges ch
             = alnum_extended (has c AllowDots) (has c AllowUnderscore)
                 (has c AllowHyphen && (has c AllowUnderscore || has c AllowDots)) ch).
    { flag_bits. unfold reValue, reType. rewrite Hm.
      repeat match goal with H : (_ >? 0) = _ |- _ => rewrite H; clear H end.
      destruct (nflags c .& AllowHyphen >? 0);
      destruct (nflags c .& AllowUnderscore >? 0);
      destruct (nflags c .& AllowDots >? 0);
      cbn [andb orb]; eexists; (split; [reflexivity|]);
      intros [[] [] [] [] [] [] [] []]; reflexivity. }
    destruct Hre as (ranges & Hparse & Hclass).
    rewrite (MatchString_run _ _ _ Hparse). cbn [fst].
    rewrite (run_of_ext _ _ _ Hclass). reflexivity.
  - unfold Alphanumeric_typed in Ht.
    destruct (pattern_checked c); [reflexivity | discriminate].
Qed.

(** C2 (the code departs from it): with [AllowHyphen] alone the class is
    [[0-9a-zA-Z]], so ["ab-12"] is rejected like ["ab_12"] and
    ["ab.12"]. *)
Theorem C2_hyphen_alone_rejected w :
  ValidateValue w (sample (TypeAlphanumeric + AllowHyphen)) false "ab-12" ""
    = Return (errors.New "Flag input has invalid value")
  /\ ValidateValue w (sample (TypeAlphanumeric + AllowHyphen)) false "ab_12" ""
    = Return (errors.New "Flag input has invalid value")
  /\ ValidateValue w (sample (TypeAlphanumeric + AllowHyphen)) false "ab.12" ""
    = Return (errors.New "Flag input has invalid value").
Proof.
  repeat split;
    rewrite (ValidateValue_alphanumeric w (sample _) false) by reflexivity;
    reflexivity.
Qed.

(** The hyphen is honoured as soon as another of the two bits is set. *)
Example hyphen_with_dots_accepted w :
  ValidateValue w (sample (TypeAlphanumeric + AllowHyphen + AllowDots)) false "ab-12" ""
  = Return nil.
Proof.
  rewrite (ValidateValue_alphanumeric w (sample _) false) by reflexivity.
  reflexivity.
Qed.

(** *** Path flags *)

(** A directory is not a regular file: [ModeDir] is one of the bits of
    [ModeType]. *)
Lemma IsDir_not_IsRegular m : fs.IsDir m = true -> fs.IsRegular m = false.
Proof.
  unfold fs.IsDir, fs.IsRegular. intros H.
  apply negb_true_iff, N.eqb_neq in H. apply N.eqb_neq. intros Hz. apply H.
  apply N.bits_inj. intros i. rewrite N.land_spec, N.bits_0.
  assert (Hi : N.testbit (N.land m fs.ModeType) i = false) by (rewrite Hz; apply N.bits_0).
  rewrite N.land_spec in Hi.
  destruct (N.testbit m i); [|reflexivity]. cbn [andb] in *.
  destruct (N.eq_dec i 31) as [->|Hne].
  - discriminate Hi.
  - unfold fs.ModeDir. apply N.pow2_bits_false. congruence.
Qed.

Lemma last_char_none s : last_char s = None -> s = "".
Proof.
  induction s as [|a s IH]; [reflexivity|].
  cbn [last_char]. destruct s; [discriminate|]. intros H. discriminate (IH H).
Qed.

Lemma last_char_app s t :
  last_char (s ++ t) = match last_char t with
                       | Some c => Some c
                       | None => last_char s
                       end.
Proof.
  induction s as [|a s IH]; cbn [append].
  - destruct (last_char t); reflexivity.
  - destruct (last_char t) as [c|] eqn:Et.
    + cbn [last_char]. rewrite IH.
      destruct (s ++ t)%string eqn:E; [|reflexivity].
      destruct s; [|discriminate]. cbn [append] in E. subst t. discriminate.
    + apply last_char_none in Et. subst t.
      assert (Hs : (s ++ "")%string = s) by (clear; induction s; cbn; congruence).
      rewrite Hs. reflexivity.
Qed.

(** Messages that end in different characters are different errors. *)
Lemma errors_differ s t :
  last_char s <> last_char t -> errors.New s <> errors.New t.
Proof. intros H E. injection E as ->. apply H. reflexivity. Qed.

Ltac messages_differ :=
  apply errors_differ; rewrite !last_char_app; cbn [last_char]; discriminate.

(** What a PathRegularFile flag with a supplied value yields, by what
    the file system answers. *)
Lemma ValidateValue_regular_file w c isArg nz az :
  PathRegularFile_typed c = true ->
  exclusive nz az = true -> nonempty (effective nz az) = true ->
  ValidateValue w c isArg nz az
  = match os.stat w (effective nz az) with
    | inr ENOENT => Return (PathNotFound c isArg (effective nz az))
    | inr _ => Panic nil_dereference
    | inl fi =>
        if negb (fs.IsRegular (fs.mode fi))
        then Return (NotARegularFile c isArg (effective nz az))
        else if has c ValidJSON then
          match os.read w (effective nz az) with
          | inr _ => Return (FileUnreadable c isArg (effective nz az))
          | inl dat =>
              if json.Valid dat then Return nil
              else Return (InvalidJSON c isArg (effective nz az))
          end
        else Return nil
    end.
Proof.
  intros Ht Hx Hv. pose proof (nonempty_effective _ _ Hv) as He.
  flag_bits. unfold ValidateValue.
  rewrite Hx, He, andb_false_r. cbn [andb].
  fold (effective nz az).
  repeat match goal with H : (_ >? 0) = _ |- _ => rewrite H; clear H end.
  rewrite Hv, orb_true_r.
  unfold os.Stat, os.ReadFile.
  destruct (os.stat w (effective nz az)) as [fi|[]]; try reflexivity.
  cbn [os.IsNotExist FileInfo_Mode bind].
  destruct (fs.IsRegular (fs.mode fi)); [|reflexivity]. cbn [negb].
  destruct (nflags c .& ValidJSON >? 0); [|reflexivity].
  destruct (os.read w (effective nz az)) as [dat|e]; [|reflexivity].
  destruct (json.Valid dat); reflexivity.
Qed.

(** C7: for a PathRegularFile flag with [ValidJSON] and a supplied value:
    a regular file holding valid JSON passes; a regular file holding
    invalid JSON yields the invalid-JSON error; a directory yields the
    not-a-regular-file error; the errors for a missing path, a path that
    is not a regular file, an unreadable file and invalid JSON are four
    different errors.  The bytes of [{"a":1}] are valid JSON and those of
    [{a:1}] are not. *)
Theorem C7_regular_file_json w c isArg nz az :
  PathRegularFile_typed c = true -> has c ValidJSON = true ->
  exclusive nz az = true -> nonempty (effective nz az) = true ->
  let v := effective nz az in
  (forall fi dat,
     os.stat w v = inl fi -> fs.IsRegular (fs.mode fi) = true ->
     os.read w v = inl dat -> json.Valid dat = true ->
     ValidateValue w c isArg nz az = Return nil)
  /\ (forall fi dat,
     os.stat w v = inl fi -> fs.IsRegular (fs.mode fi) = true ->
     os.read w v = inl dat -> json.Valid dat = false ->
     ValidateValue w c isArg nz az
     = Return (errors.New (v ++ " " ++ nlabel_of c isArg ++ " is not a valid JSON")))
  /\ (forall fi,
     os.stat w v = inl fi -> fs.IsDir (fs.mode fi) = true ->
     ValidateValue w c isArg nz az
     = Return (errors.New ("Path " ++ v ++ " from " ++ nlabel_of c isArg
                           ++ " is not a regular file")))
  /\ (os.stat w v = inr ENOENT ->
     ValidateValue w c isArg nz az
     = Return (errors.New ("File " ++ v ++ " from " ++ nlabel_of c isArg
                           ++ " does not exist")))
  /\ (forall fi e,
     os.stat w v = inl fi -> fs.IsRegular (fs.mode fi) = true ->
     os.read w v = inr e ->
     ValidateValue w c isArg nz az
     = Return (errors.New (v ++ " " ++ nlabel_of c isArg ++ " cannot be opened")))
  /\ (PathNotFound c isArg v <> NotARegularFile c isArg v
      /\ PathNotFound c isArg v <> FileUnreadable c isArg v
      /\ PathNotFound c isArg v <> InvalidJSON c isArg v
      /\ NotARegularFile c isArg v <> FileUnreadable c isArg v
      /\ NotARegularFile c isArg v <> InvalidJSON c isArg v
      /\ FileUnreadable c isArg v <> InvalidJSON c isArg v)
  /\ json.Valid json_good = true
  /\ json.Valid json_bad = false.
Proof.
  intros Ht Hj Hx Hv v. subst v.
  rewrite (ValidateValue_regular_file w c isArg nz az Ht Hx Hv), Hj.
  split; [intros fi dat -> -> -> ->; reflexivity|].
  split; [intros fi dat -> -> -> ->; reflexivity|].
  split; [intros fi -> Hd; rewrite (IsDir_not_IsRegular _ Hd); reflexivity|].
  split; [intros ->; reflexivity|].
  split; [intros fi e -> -> ->; reflexivity|].
  split; [|split; reflexivity].
  unfold PathNotFound, NotARegularFile, FileUnreadable, InvalidJSON.
  repeat split; messages_differ.
Qed.

Lemma C7_regular_file_json_witness :
  PathRegularFile_typed (sample (TypePathRegularFile + ValidJSON)) = true
  /\ has (sample (TypePathRegularFile + ValidJSON)) ValidJSON = true
  /\ ValidateValue sample_fs (sample (TypePathRegularFile + ValidJSON))
       false "/srv/good.json" "" = Return nil
  /\ ValidateValue sample_fs (sample (TypePathRegularFile + ValidJSON))
       false "/srv/bad.json" ""
     = Return (errors.New "/srv/bad.json input is not a valid JSON")
  /\ ValidateValue sample_fs (sample (TypePathRegularFile + ValidJSON))
       false "" "/srv"
     = Return (errors.New "Path /srv from input is not a regular file")
  /\ ValidateValue sample_fs (sample (TypePathRegularFile + ValidJSON))
       false "/srv/none.json" ""
     = Return (errors.New "File /srv/none.json from input does not exist")
  /\ ValidateValue sample_fs (sample (TypePathRegularFile + ValidJSON))
       false "/srv/locked.json" ""
     = Return (errors.New "/srv/locked.json input cannot be opened").
Proof.
  do 2 (split; [reflexivity|]).
  split.
  { apply (C7_regular_file_json sample_fs (sample (TypePathRegularFile + ValidJSON))
             false "/srv/good.json" "" eq_refl eq_refl eq_refl eq_refl)
      with (fi := regular_file) (dat := json_good); reflexivity. }
  split.
  { apply (C7_regular_file_json sample_fs (sample (TypePathRegularFile + ValidJSON))
             false "/srv/bad.json" "" eq_refl eq_refl eq_refl eq_refl)
      with (fi := regular_file) (dat := json_bad); reflexivity. }
  split.
  { apply (C7_regular_file_json sample_fs (sample (TypePathRegularFile + ValidJSON))
             false "" "/srv" eq_refl eq_refl eq_refl eq_refl)
      with (fi := directory); reflexivity. }
  split.
  { apply (C7_regular_file_json sample_fs (sample (TypePathRegularFile + ValidJSON))
             false "/srv/none.json" "" eq_refl eq_refl eq_refl eq_refl); reflexivity. }
  apply (C7_regular_file_json sample_fs (sample (TypePathRegularFile + ValidJSON))
           false "/srv/locked.json" "" eq_refl eq_refl eq_refl eq_refl)
    with (fi := regular_file) (e := EACCES); reflexivity.
Defined.

(** What a PathFile flag with a supplied value yields: only nonexistence
    is an error. *)
Lemma ValidateValue_path_file w c isArg nz az :
  PathFile_typed c = true ->
  exclusive nz az = true -> nonempty (effective nz az) = true ->
  ValidateValue w c isArg nz az
  = match os.stat w (effective nz az) with
    | inr ENOENT => Return (PathNotFound c isArg (effective nz az))
    | _ => Return nil
    end.
Proof.
  intros Ht Hx Hv. pose proof (nonempty_effective _ _ Hv) as He.
  flag_bits. unfold ValidateValue.
  rewrite Hx, He, andb_false_r. cbn [andb].
  fold (effective nz az).
  repeat match goal with H : (_ >? 0) = _ |- _ => rewrite H; clear H end.
  rewrite Hv, orb_true_r.
  unfold os.Stat.
  destruct (os.stat w (effective nz az)) as [fi|[]]; reflexivity.
Qed.

(** What a PathDir flag with a supplied value yields. *)
Lemma ValidateValue_directory w c isArg nz az :
  PathDir_typed c = true ->
  exclusive nz az = true -> nonempty (effective nz az) = true ->
  ValidateValue w c isArg nz az
  = match os.stat w (effective nz az) with
    | inr ENOENT =>
        Return (errors.New ("Directory " ++ effective nz az ++ " from "
                            ++ nlabel_of c isArg ++ " does not exist"))
    | inr _ => Panic nil_dereference
    | inl fi =>
        if fs.IsDir (fs.mode fi) then Return nil
        else Return (errors.New ("Path " ++ effective nz az ++ " from "
                                 ++ nlabel_of c isArg ++ " is not a directory"))
    end.
Proof.
  intros Ht Hx Hv. pose proof (nonempty_effective _ _ Hv) as He.
  flag_bits. unfold ValidateValue.
  rewrite Hx, He, andb_false_r. cbn [andb].
  fold (effective nz az).
  repeat match goal with H : (_ >? 0) = _ |- _ => rewrite H; clear H end.
  rewrite Hv, orb_true_r.
  unfold os.Stat.
  destruct (os.stat w (effective nz az)) as [fi|[]]; try reflexivity.
  cbn [os.IsNotExist FileInfo_IsDir bind].
  destruct (fs.IsDir (fs.mode fi)); reflexivity.
Qed.

(** Whenever [stat] fails for a reason other than nonexistence on the
    value of a PathRegularFile or PathDir flag, the call panics. *)
Lemma ValidateValue_stat_failure w c isArg nz az e :
  PathRegularFile_typed c || PathDir_typed c = true ->
  exclusive nz az = true -> nonempty (effective nz az) = true ->
  os.stat w (effective nz az) = inr e -> e <> ENOENT ->
  ValidateValue w c isArg nz az = Panic nil_dereference.
Proof.
  intros Ht Hx Hv Hs He. apply orb_true_iff in Ht. destruct Ht as [Ht | Ht].
  - rewrite ValidateValue_regular_file, Hs by assumption.
    destruct e; congruence.
  - rewrite ValidateValue_directory, Hs by assumption.
    destruct e; congruence.
Qed.

(** These are the only panics: everywhere else the call returns. *)
Lemma ValidateValue_panics_only w c isArg nz az msg :
  ValidateValue w c isArg nz az = Panic msg ->
  PathRegularFile_typed c || PathDir_typed c = true
  /\ exists e, os.stat w (effective nz az) = inr e /\ e <> ENOENT.
Proof.
  unfold ValidateValue, PathRegularFile_typed, PathDir_typed, has, os.Stat, os.ReadFile.
  fold (effective nz az).
  destruct (nonempty nz && nonempty az); [discriminate|].
  match goal with |- context [if ?b then Return (errors.New (_ ++ " " ++ _ ++ " is missing")) else _] =>
    destruct b; [discriminate|] end.
  destruct (nflags c .& TypeString >? 0); [discriminate|].
  destruct (_ || nonempty (effective nz az)); [|discriminate].
  destruct (nflags c .& TypePathFile >? 0).
  { destruct (os.stat w (effective nz az)) as [fi|[]]; discriminate. }
  destruct (nflags c .& TypePathRegularFile >? 0).
  { destruct (os.stat w (effective nz az)) as [fi|e]; cbn.
    - destruct (fs.IsRegular (fs.mode fi)); [|discriminate]. cbn.
      destruct (nflags c .& ValidJSON >? 0); [|discriminate].
      destruct (os.read w (effective nz az)) as [dat|?]; [|discriminate].
      destruct (json.Valid dat); discriminate.
    - destruct e; cbn; try discriminate; intros _;
        (split; [reflexivity|]); eexists; (split; [reflexivity | discriminate]). }
  destruct (nflags c .& TypePathDir >? 0).
  { destruct (os.stat w (effective nz az)) as [fi|e]; cbn.
    - destruct (fs.IsDir (fs.mode fi)); discriminate.
    - destruct e; cbn; try discriminate; intros _;
        (split; [reflexivity|]); eexists; (split; [reflexivity | discriminate]). }
  destruct (regexp.MatchString (reValue c) (effective nz az)) as [m []];
    try discriminate.
  destruct m; discriminate.
Qed.

(** C8 (the code departs from it): when [stat] fails with a permission
    error, the PathRegularFile and the PathDir checks call a method on the
    nil [FileInfo] and the call panics instead of returning an error. *)
Theorem C8_stat_failure_panics :
  ValidateValue sample_fs (sample TypePathRegularFile) false "/root/secret/key" ""
    = Panic "runtime error: invalid memory address or nil pointer dereference"
  /\ ValidateValue sample_fs (sample (Required + TypePathDir)) true "" "/root/secret/key"
    = Panic "runtime error: invalid memory address or nil pointer dereference".
Proof.
  split.
  - apply (ValidateValue_stat_failure sample_fs (sample TypePathRegularFile) false
             "/root/secret/key" "" EACCES); try reflexivity. discriminate.
  - apply (ValidateValue_stat_failure sample_fs (sample (Required + TypePathDir)) true
             "" "/root/secret/key" EACCES); try reflexivity. discriminate.
Qed.

(** The PathFile check, next to them, does not look at the [FileInfo] and
    returns on the same failure. *)
Example PathFile_stat_failure_returns :
  ValidateValue sample_fs (sample TypePathFile) false "/root/secret/key" ""
  = Return nil.
Proof. reflexivity. Qed.

(** C9: the result is a function of the flag, the arguments and what the
    file system answers for the effective value: two runs on file systems
    that agree there, in particular on the same file system, return the
    same result. *)
Theorem C9_deterministic w1 w2 c isArg nz az :
  os.stat w1 (effective nz az) = os.stat w2 (effective nz az) ->
  os.read w1 (effective nz az) = os.read w2 (effective nz az) ->
  ValidateValue w1 c isArg nz az = ValidateValue w2 c isArg nz az.
Proof.
  intros Hs Hr. unfold ValidateValue, os.Stat, os.ReadFile.
  fold (effective nz az). rewrite Hs, Hr. reflexivity.
Qed.

Lemma C9_deterministic_witness :
  os.stat sample_fs (effective "/srv/good.json" "")
    = os.stat sample_fs_later (effective "/srv/good.json" "")
  /\ os.read sample_fs (effective "/srv/good.json" "")
    = os.read sample_fs_later (effective "/srv/good.json" "")
  /\ ValidateValue sample_fs (sample (TypePathRegularFile + ValidJSON))
       false "/srv/good.json" ""
     = ValidateValue sample_fs_later (sample (TypePathRegularFile + ValidJSON))
       false "/srv/good.json" "".
Proof.
  do 2 (split; [reflexivity|]).
  apply (C9_deterministic sample_fs sample_fs_later
           (sample (TypePathRegularFile + ValidJSON)) false "/srv/good.json" "");
    reflexivity.
Defined.

(** *** The bits that matter *)

(** Two flags with the same name, alias and placeholder whose masks agree
    on the tested bits validate alike. *)
Lemma ValidateValue_checked_bits w c1 c2 isArg nz az :
  name c1 = name c2 -> alias c1 = alias c2 -> helpValue c1 = helpValue c2 ->
  Forall (fun bit => nflags c1 .& bit = nflags c2 .& bit) checked_bits ->
  ValidateValue w c1 isArg nz az = ValidateValue w c2 isArg nz az.
Proof.
  intros Hn Ha Hh Hb. unfold checked_bits in Hb.
  repeat match goal with
  | H : Forall _ (_ :: _) |- _ => inversion H; subst; clear H
  end.
  unfold ValidateValue, reValue, reType.
  repeat match goal with H : nflags c1 .& _ = _ |- _ => rewrite H; clear H end.
  rewrite Hn, Ha, Hh. reflexivity.
Qed.

Lemma land_without_MustExist n bit :
  bit .& MustExist = 0 ->
  Z.lor n MustExist .& bit = Z.land n (Z.lnot MustExist) .& bit.
Proof.
  intros H. apply Z.bits_inj'. intros i Hi.
  assert (Hb : Z.testbit (bit .& MustExist) i = false) by (rewrite H; apply Z.bits_0).
  rewrite Z.land_spec in Hb.
  rewrite !Z.land_spec, Z.lor_spec, Z.lnot_spec by assumption.
  destruct (Z.testbit n i), (Z.testbit bit i), (Z.testbit MustExist i);
    cbn in *; congruence.
Qed.

(** C10: setting or clearing [MustExist] in a mask does not change the
    result of [ValidateValue]; a PathFile flag is checked for existence
    with the bit clear as with the bit set. *)
Theorem C10_MustExist_ignored :
  (forall w n a hv d mask isArg nz az,
     ValidateValue w (NewCLIFlag n a hv d (Z.lor mask MustExist)) isArg nz az
     = ValidateValue w (NewCLIFlag n a hv d (Z.land mask (Z.lnot MustExist))) isArg nz az)
  /\ ValidateValue sample_fs (sample TypePathFile) false "/srv/none.txt" ""
     = Return (errors.New "File /srv/none.txt from input does not exist")
  /\ ValidateValue sample_fs (sample (TypePathFile + MustExist)) false "/srv/none.txt" ""
     = Return (errors.New "File /srv/none.txt from input does not exist").
Proof.
  split; [|split; reflexivity].
  intros w n a hv d mask isArg nz az.
  apply ValidateValue_checked_bits; try reflexivity.
  unfold checked_bits. cbn [nflags].
  repeat (apply Forall_cons; [apply land_without_MustExist; reflexivity|]).
  apply Forall_nil.
Qed.

(** * Further properties of cli_flag.go *)

(** ** Values and forms *)

(** X1: for a flag with [TypeString] set the outcome is decided by the
    two presence checks alone, whatever the other bits and the file
    system are: the conflicting-forms error, the missing-value error for a
    required flag without a value, and success otherwise. *)
Theorem String_flag_outcome w c isArg nz az :
  has c TypeString = true ->
  ValidateValue w c isArg nz az
  = Return (if nonempty nz && nonempty az
            then errors.New ("Both -" ++ alias c ++ " and --" ++ name c ++ " passed")
            else if has c Required && negb (nonempty (effective nz az))
            then errors.New (label_of isArg ++ " " ++ nlabel_of c isArg ++ " is missing")
            else nil).
Proof.
  unfold has, ValidateValue, effective, nonempty. intros Hs. rewrite Hs.
  destruct (String.eqb nz "") eqn:En; cbn [negb andb orb]; rewrite ?En;
    destruct (String.eqb az "") eqn:Ea; cbn [negb andb orb]; rewrite ?Ea;
    try reflexivity;
    destruct (nflags c .& Required >? 0); reflexivity.
Qed.

Lemma String_flag_outcome_witness :
  has (sample (TypeString + TypePathFile + ValidJSON)) TypeString = true
  /\ ValidateValue sample_fs (sample (TypeString + TypePathFile + ValidJSON))
       false "/srv/none.txt" "" = Return nil.
Proof.
  split; [reflexivity|].
  apply (String_flag_outcome sample_fs (sample (TypeString + TypePathFile + ValidJSON))
           false "/srv/none.txt" ""). reflexivity.
Defined.

(** X2: with no value in either form the outcome does not depend on the
    file system or on any pattern: a required flag of a value-requiring
    type is reported missing, every other flag passes. *)
Theorem no_value_outcome w c isArg :
  ValidateValue w c isArg "" ""
  = Return (if has c Required && IsRequireValue c
            then errors.New (label_of isArg ++ " " ++ nlabel_of c isArg ++ " is missing")
            else nil).
Proof.
  destruct (has c Required) eqn:Hr; cbn [andb].
  - destruct (IsRequireValue c) eqn:Hv.
    + unfold has, IsRequireValue in *. unfold ValidateValue. rewrite Hr, Hv. reflexivity.
    + apply ValidateValue_valueless_empty. exact Hv.
  - apply ValidateValue_absent. exact Hr.
Qed.

(** X3: it does not matter which of the two forms carries the value. *)
Theorem forms_interchangeable w c isArg v :
  ValidateValue w c isArg v "" = ValidateValue w c isArg "" v.
Proof.
  unfold ValidateValue, nonempty.
  destruct (String.eqb v "") eqn:E.
  - apply String.eqb_eq in E. subst v. reflexivity.
  - cbn [negb andb String.eqb]. rewrite E. cbn [negb andb].
    rewrite !andb_false_r. reflexivity.
Qed.

(** X4: [isArg] changes the wording of the errors only: whether the call
    passes, fails or panics is the same for a flag and for a positional
    argument. *)
Theorem isArg_changes_wording_only w c nz az :
  verdict (ValidateValue w c true nz az) = verdict (ValidateValue w c false nz az).
Proof.
  unfold ValidateValue, os.Stat, os.ReadFile.
  destruct (nonempty nz && nonempty az); [reflexivity|].
  match goal with |- context [if ?b then Return (errors.New (_ ++ " " ++ _ ++ " is missing")) else _] =>
    destruct b; [reflexivity|] end.
  destruct (nflags c .& TypeString >? 0); [reflexivity|].
  destruct (_ || nonempty _); [|reflexivity].
  destruct (nflags c .& TypePathFile >? 0).
  { destruct (os.stat w _) as [fi|[]]; reflexivity. }
  destruct (nflags c .& TypePathRegularFile >? 0).
  { destruct (os.stat w _) as [fi|[]]; try reflexivity. cbn.
    destruct (fs.IsRegular (fs.mode fi)); [|reflexivity]. cbn.
    destruct (nflags c .& ValidJSON >? 0); [|reflexivity].
    destruct (os.read w _) as [dat|?]; [|reflexivity].
    destruct (json.Valid dat); reflexivity. }
  destruct (nflags c .& TypePathDir >? 0).
  { destruct (os.stat w _) as [fi|[]]; try reflexivity. cbn.
    destruct (fs.IsDir (fs.mode fi)); reflexivity. }
  destruct (regexp.MatchString (reValue c) _) as [m []]; try reflexivity.
  destruct m; reflexivity.
Qed.

(** ** Path flags and the file system *)

(** X5: a PathFile flag with a value fails only when [stat] reports that
    the path does not exist; every entry that exists passes, a directory
    as well as a file, and so does a path whose [stat] fails for another
    reason. *)
Theorem PathFile_only_nonexistence_fails w c isArg nz az :
  PathFile_typed c = true ->
  exclusive nz az = true -> nonempty (effective nz az) = true ->
  (os.stat w (effective nz az) = inr ENOENT ->
   ValidateValue w c isArg nz az
   = Return (errors.New ("File " ++ effective nz az ++ " from "
                         ++ nlabel_of c isArg ++ " does not exist")))
  /\ (os.stat w (effective nz az) <> inr ENOENT ->
      ValidateValue w c isArg nz az = Return nil).
Proof.
  intros Ht Hx Hv. rewrite (ValidateValue_path_file w c isArg nz az Ht Hx Hv).
  split.
  - intros ->. reflexivity.
  - intros Hs. destruct (os.stat w (effective nz az)) as [fi|[]];
      try reflexivity. contradiction.
Qed.

Lemma PathFile_only_nonexistence_fails_witness :
  PathFile_typed (sample (Required + TypePathFile)) = true
  /\ ValidateValue sample_fs (sample (Required + TypePathFile)) false "/srv/none.txt" ""
     = Return (errors.New "File /srv/none.txt from input does not exist")
  /\ ValidateValue sample_fs (sample (Required + TypePathFile)) false "" "/srv"
     = Return nil
  /\ ValidateValue sample_fs (sample (Required + TypePathFile)) false "/root/secret/key" ""
     = Return nil.
Proof.
  split; [reflexivity|].
  split.
  { apply (PathFile_only_nonexistence_fails sample_fs (sample (Required + TypePathFile))
             false "/srv/none.txt" "" eq_refl eq_refl eq_refl). reflexivity. }
  split.
  { apply (PathFile_only_nonexistence_fails sample_fs (sample (Required + TypePathFile))
             false "" "/srv" eq_refl eq_refl eq_refl). discriminate. }
  apply (PathFile_only_nonexistence_fails sample_fs (sample (Required + TypePathFile))
           false "/root/secret/key" "" eq_refl eq_refl eq_refl). discriminate.
Defined.

(** X6: a PathDir flag with a value passes on a directory, yields the
    not-a-directory error on any other entry that exists, and the
    directory-does-not-exist error on a missing path. *)
Theorem PathDir_outcome w c isArg nz az :
  PathDir_typed c = true ->
  exclusive nz az = true -> nonempty (effective nz az) = true ->
  (forall fi, os.stat w (effective nz az) = inl fi ->
     ValidateValue w c isArg nz az
     = Return (if fs.IsDir (fs.mode fi) then nil
               else errors.New ("Path " ++ effective nz az ++ " from "
                                ++ nlabel_of c isArg ++ " is not a directory")))
  /\ (os.stat w (effective nz az) = inr ENOENT ->
      ValidateValue w c isArg nz az
      = Return (errors.New ("Directory " ++ effective nz az ++ " from "
                            ++ nlabel_of c isArg ++ " does not exist"))).
Proof.
  intros Ht Hx Hv. rewrite (ValidateValue_directory w c isArg nz az Ht Hx Hv).
  split.
  - intros fi ->. destruct (fs.IsDir (fs.mode fi)); reflexivity.
  - intros ->. reflexivity.
Qed.

Lemma PathDir_outcome_witness :
  PathDir_typed (sample TypePathDir) = true
  /\ ValidateValue sample_fs (sample TypePathDir) true "/srv" "" = Return nil
  /\ ValidateValue sample_fs (sample TypePathDir) true "" "/srv/good.json"
     = Return (errors.New "Path /srv/good.json from INPUT is not a directory")
  /\ ValidateValue sample_fs (sample TypePathDir) true "/srv/none" ""
     = Return (errors.New "Directory /srv/none from INPUT does not exist").
Proof.
  split; [reflexivity|].
  split.
  { apply (PathDir_outcome sample_fs (sample TypePathDir) true "/srv" ""
             eq_refl eq_refl eq_refl) with (fi := directory). reflexivity. }
  split.
  { apply (PathDir_outcome sample_fs (sample TypePathDir) true "" "/srv/good.json"
             eq_refl eq_refl eq_refl) with (fi := regular_file). reflexivity. }
  apply (PathDir_outcome sample_fs (sample TypePathDir) true "/srv/none" ""
           eq_refl eq_refl eq_refl). reflexivity.
Defined.

(** X7: without [ValidJSON] a PathRegularFile flag is judged by the file
    mode alone: a regular file passes whatever it holds and whether or not
    it can be read, any other entry yields the not-a-regular-file
    error. *)
Theorem PathRegularFile_mode_only w c isArg nz az :
  PathRegularFile_typed c = true -> has c ValidJSON = false ->
  exclusive nz az = true -> nonempty (effective nz az) = true ->
  forall fi, os.stat w (effective nz az) = inl fi ->
  ValidateValue w c isArg nz az
  = Return (if fs.IsRegular (fs.mode fi) then nil
            else errors.New ("Path " ++ effective nz az ++ " from "
                             ++ nlabel_of c isArg ++ " is not a regular file")).
Proof.
  intros Ht Hj Hx Hv fi Hs.
  rewrite (ValidateValue_regular_file w c isArg nz az Ht Hx Hv), Hs, Hj.
  destruct (fs.IsRegular (fs.mode fi)); reflexivity.
Qed.

Lemma PathRegularFile_mode_only_witness :
  PathRegularFile_typed (sample TypePathRegularFile) = true
  /\ has (sample TypePathRegularFile) ValidJSON = false
  /\ ValidateValue sample_fs (sample TypePathRegularFile) false "/srv/bad.json" ""
     = Return nil
  /\ ValidateValue sample_fs (sample TypePathRegularFile) false "/srv/locked.json" ""
     = Return nil
  /\ ValidateValue sample_fs (sample TypePathRegularFile) false "/srv" ""
     = Return (errors.New "Path /srv from input is not a regular file").
Proof.
  do 2 (split; [reflexivity|]).
  split.
  { apply (PathRegularFile_mode_only sample_fs (sample TypePathRegularFile) false
             "/srv/bad.json" "" eq_refl eq_refl eq_refl eq_refl regular_file).
    reflexivity. }
  split.
  { apply (PathRegularFile_mode_only sample_fs (sample TypePathRegularFile) false
             "/srv/locked.json" "" eq_refl eq_refl eq_refl eq_refl regular_file).
    reflexivity. }
  apply (PathRegularFile_mode_only sample_fs (sample TypePathRegularFile) false
           "/srv" "" eq_refl eq_refl eq_refl eq_refl directory).
  reflexivity.
Defined.

(** Every error the function returns is [nil] or a message of its own:
    the errors of [os] and [regexp] are never passed on. *)
Lemma ValidateValue_plain_error w c isArg nz az e :
  ValidateValue w c isArg nz az = Return e -> plain_error e = true.
Proof.
  unfold ValidateValue, os.Stat, os.ReadFile.
  destruct (nonempty nz && nonempty az); [intros [= <-]; reflexivity|].
  match goal with |- context [if ?b then Return (errors.New (_ ++ " " ++ _ ++ " is missing")) else _] =>
    destruct b; [intros [= <-]; reflexivity|] end.
  destruct (nflags c .& TypeString >? 0); [intros [= <-]; reflexivity|].
  destruct (_ || nonempty _); [|intros [= <-]; reflexivity].
  destruct (nflags c .& TypePathFile >? 0).
  { destruct (os.stat w _) as [fi|[]]; intros [= <-]; reflexivity. }
  destruct (nflags c .& TypePathRegularFile >? 0).
  { destruct (os.stat w _) as [fi|[]]; cbn; try discriminate;
      try (intros [= <-]; reflexivity).
    destruct (fs.IsRegular (fs.mode fi)); cbn; [|intros [= <-]; reflexivity].
    destruct (nflags c .& ValidJSON >? 0); [|intros [= <-]; reflexivity].
    destruct (os.read w _) as [dat|?]; [|intros [= <-]; reflexivity].
    destruct (json.Valid dat); intros [= <-]; reflexivity. }
  destruct (nflags c .& TypePathDir >? 0).
  { destruct (os.stat w _) as [fi|[]]; cbn; try discriminate;
      try (intros [= <-]; reflexivity).
    destruct (fs.IsDir (fs.mode fi)); intros [= <-]; reflexivity. }
  destruct (regexp.MatchString (reValue c) _) as [m []];
    try (intros [= <-]; reflexivity).
  destruct m; intros [= <-]; reflexivity.
Qed.

(** X8: unless the flag is PathRegularFile- or PathDir-typed and [stat]
    fails for a reason other than nonexistence, the call returns, and what
    it returns is [nil] or one of its own messages, never an error of
    [os] or [regexp]. *)
Theorem returns_own_errors w c isArg nz az :
  PathRegularFile_typed c || PathDir_typed c = false
  \/ (forall e, os.stat w (effective nz az) = inr e -> e = ENOENT) ->
  exists e, ValidateValue w c isArg nz az = Return e /\ plain_error e = true.
Proof.
  intros H. destruct (ValidateValue w c isArg nz az) as [e|msg] eqn:E.
  - exists e. split; [reflexivity|]. eapply ValidateValue_plain_error. exact E.
  - exfalso. apply ValidateValue_panics_only in E.
    destruct E as (Ht & e & Hs & He).
    destruct H as [H | H]; [congruence | exact (He (H e Hs))].
Qed.

Lemma returns_own_errors_witness :
  (PathRegularFile_typed (sample TypePathFile) || PathDir_typed (sample TypePathFile) = false
   \/ (forall e, os.stat sample_fs (effective "/root/secret/key" "") = inr e -> e = ENOENT))
  /\ exists e, ValidateValue sample_fs (sample TypePathFile) false "/root/secret/key" ""
               = Return e /\ plain_error e = true.
Proof.
  split; [left; reflexivity|].
  apply (returns_own_errors sample_fs (sample TypePathFile) false "/root/secret/key" "").
  left. reflexivity.
Defined.

(** X9: a flag without a path type never consults the file system: the
    outcome is the same on any two file systems. *)
Theorem non_path_flags_ignore_file_system w1 w2 c isArg nz az :
  has c TypeString || pattern_checked c = true ->
  ValidateValue w1 c isArg nz az = ValidateValue w2 c isArg nz az.
Proof.
  unfold pattern_checked, has, ValidateValue. intros H.
  destruct (nflags c .& TypeString >? 0); [reflexivity|].
  cbn [orb negb andb] in H.
  destruct (nflags c .& TypePathFile >? 0); [discriminate|].
  destruct (nflags c .& TypePathRegularFile >? 0); [discriminate|].
  destruct (nflags c .& TypePathDir >? 0); [discriminate|].
  reflexivity.
Qed.

Lemma non_path_flags_ignore_file_system_witness :
  has (sample (TypeInt + ValidJSON)) TypeString
    || pattern_checked (sample (TypeInt + ValidJSON)) = true
  /\ ValidateValue sample_fs (sample (TypeInt + ValidJSON)) false "/srv/bad.json" ""
     = ValidateValue sample_fs_later (sample (TypeInt + ValidJSON)) false "/srv/bad.json" "".
Proof.
  split; [reflexivity|].
  apply (non_path_flags_ignore_file_system sample_fs sample_fs_later
           (sample (TypeInt + ValidJSON)) false "/srv/bad.json" "").
  reflexivity.
Defined.

(** X10: the contents of a file are read only for a PathRegularFile flag
    with [ValidJSON]: for every other flag the outcome depends on the file
    system through [stat] of the value alone. *)
Theorem contents_read_for_json_only w1 w2 c isArg nz az :
  PathRegularFile_typed c && has c ValidJSON = false ->
  os.stat w1 (effective nz az) = os.stat w2 (effective nz az) ->
  ValidateValue w1 c isArg nz az = ValidateValue w2 c isArg nz az.
Proof.
  unfold PathRegularFile_typed, has, ValidateValue, os.Stat. intros H Hs.
  fold (effective nz az). rewrite Hs.
  destruct (nflags c .& TypeString >? 0); [reflexivity|].
  destruct (nflags c .& TypePathFile >? 0); [reflexivity|].
  destruct (nflags c .& TypePathRegularFile >? 0); [|reflexivity].
  cbn [negb andb] in H. rewrite H. reflexivity.
Qed.

Lemma contents_read_for_json_only_witness :
  PathRegularFile_typed (sample TypePathRegularFile)
    && has (sample TypePathRegularFile) ValidJSON = false
  /\ os.stat sample_fs (effective "/srv/good.json" "")
     = os.stat sample_fs_unreadable (effective "/srv/good.json" "")
  /\ ValidateValue sample_fs (sample TypePathRegularFile) false "/srv/good.json" ""
     = ValidateValue sample_fs_unreadable (sample TypePathRegularFile) false
         "/srv/good.json" "".
Proof.
  do 2 (split; [reflexivity|]).
  apply (contents_read_for_json_only sample_fs sample_fs_unreadable
           (sample TypePathRegularFile) false "/srv/good.json" ""); reflexivity.
Defined.

(** ** Bits that are not looked at *)

Lemma land_set_other n b bit :
  bit .& b = 0 -> Z.lor n b .& bit = n .& bit.
Proof.
  intros H. apply Z.bits_inj'. intros i Hi.
  assert (Hb : Z.testbit (bit .& b) i = false) by (rewrite H; apply Z.bits_0).
  rewrite Z.land_spec in Hb. rewrite !Z.land_spec, Z.lor_spec.
  destruct (Z.testbit n i), (Z.testbit bit i), (Z.testbit b i); cbn in *; congruence.
Qed.

Lemma land_clear_other n b bit :
  bit .& b = 0 -> Z.land n (Z.lnot b) .& bit = n .& bit.
Proof.
  intros H. apply Z.bits_inj'. intros i Hi.
  assert (Hb : Z.testbit (bit .& b) i = false) by (rewrite H; apply Z.bits_0).
  rewrite Z.land_spec in Hb. rewrite !Z.land_spec, Z.lnot_spec by assumption.
  destruct (Z.testbit n i), (Z.testbit bit i), (Z.testbit b i); cbn in *; congruence.
Qed.

(** Setting or clearing a bit that is not among the tested ones. *)
Lemma ValidateValue_untested_bit w n a hv d mask b isArg nz az :
  Forall (fun bit => bit .& b = 0) checked_bits ->
  ValidateValue w (NewCLIFlag n a hv d (Z.lor mask b)) isArg nz az
  = ValidateValue w (NewCLIFlag n a hv d (Z.land mask (Z.lnot b))) isArg nz az.
Proof.
  intros H. apply ValidateValue_checked_bits; try reflexivity.
  cbn [nflags]. eapply Forall_impl; [|exact H].
  intros bit Hb. cbn beta in *.
  rewrite land_set_other, land_clear_other by assumption. reflexivity.
Qed.

(** X11: the type bits [TypeBool], [TypeEmail] and [TypeFQDN] are never
    tested: setting or clearing any of them in a mask leaves the outcome
    of the validation unchanged. *)
Theorem Bool_Email_FQDN_bits_ignored w n a hv d mask isArg nz az :
  ValidateValue w (NewCLIFlag n a hv d (Z.lor mask TypeBool)) isArg nz az
  = ValidateValue w (NewCLIFlag n a hv d (Z.land mask (Z.lnot TypeBool))) isArg nz az
  /\ ValidateValue w (NewCLIFlag n a hv d (Z.lor mask TypeEmail)) isArg nz az
  = ValidateValue w (NewCLIFlag n a hv d (Z.land mask (Z.lnot TypeEmail))) isArg nz az
  /\ ValidateValue w (NewCLIFlag n a hv d (Z.lor mask TypeFQDN)) isArg nz az
  = ValidateValue w (NewCLIFlag n a hv d (Z.land mask (Z.lnot TypeFQDN))) isArg nz az.
Proof.
  repeat split; apply ValidateValue_untested_bit;
    unfold checked_bits; repeat (apply Forall_cons; [reflexivity|]); apply Forall_nil.
Qed.

(** X12: [ValidJSON] is looked at only in the PathRegularFile check: for
    a flag of any other type, setting or clearing it leaves the outcome
    unchanged (the value itself is never parsed as JSON). *)
Theorem ValidJSON_ignored_elsewhere w n a hv d mask isArg nz az :
  PathRegularFile_typed (NewCLIFlag n a hv d mask) = false ->
  ValidateValue w (NewCLIFlag n a hv d (Z.lor mask ValidJSON)) isArg nz az
  = ValidateValue w (NewCLIFlag n a hv d (Z.land mask (Z.lnot ValidJSON))) isArg nz az.
Proof.
  unfold PathRegularFile_typed, has, ValidateValue, reValue, reType.
  cbn [nflags name alias helpValue]. intros H.
  repeat match goal with
  | |- context [Z.lor mask ValidJSON .& ?bit] =>
      lazymatch bit with
      | ValidJSON => fail
      | _ => rewrite (land_set_other mask ValidJSON bit) by reflexivity
      end
  | |- context [Z.land mask (Z.lnot ValidJSON) .& ?bit] =>
      lazymatch bit with
      | ValidJSON => fail
      | _ => rewrite (land_clear_other mask ValidJSON bit) by reflexivity
      end
  end.
  destruct (mask .& TypeString >? 0); [reflexivity|].
  destruct (mask .& TypePathFile >? 0); [reflexivity|].
  destruct (mask .& TypePathRegularFile >? 0); [discriminate|].
  reflexivity.
Qed.

Lemma ValidJSON_ignored_elsewhere_witness :
  PathRegularFile_typed (NewCLIFlag "input" "i" "INPUT" "the input" TypeAlphanumeric) = false
  /\ ValidateValue sample_fs
       (NewCLIFlag "input" "i" "INPUT" "the input" (Z.lor TypeAlphanumeric ValidJSON))
       false "{a:1}" ""
     = ValidateValue sample_fs
       (NewCLIFlag "input" "i" "INPUT" "the input"
          (Z.land TypeAlphanumeric (Z.lnot ValidJSON)))
       false "{a:1}" "".
Proof.
  split; [reflexivity|].
  apply (ValidJSON_ignored_elsewhere sample_fs "input" "i" "INPUT" "the input"
           TypeAlphanumeric false "{a:1}" ""). reflexivity.
Defined.

(** ** Lists of values joined by a separator *)
Module list_facts.
Import syntax regexp language spec regexp_facts.
Local Open Scope list_scope.
Local Arguments class_mem : simpl never.
Local Arguments lang : simpl never.
Local Arguments optional_suffix : simpl never.

(** Zero or more pieces of [r], each after a delimiter. *)
Lemma lang_delimited r (ok : list ascii -> bool) d :
  (forall bot eot w, lang r bot eot w <-> ok w = true) ->
  forall w bot eot,
    lang (star (OpConcat (literal d) r)) bot eot w
    <-> exists ps, w = joined d ps /\ forallb ok ps = true.
Proof.
  intros Hr w bot eot. unfold star. split.
  - intros H. apply lang_star in H.
    induction H as [|bot eot c w1 w2 H1 _ (ps & -> & Hps)].
    + exists []. auto.
    + apply lang_concat in H1. destruct H1 as (x & y & Hxy & Hx & Hy).
      apply lang_literal in Hx. subst x. injection Hxy as -> ->.
      apply Hr in Hy.
      exists (y :: ps). unfold joined. simpl. rewrite Hy, Hps. auto.
  - intros (ps & -> & Hps). revert bot.
    induction ps as [|y ps IH]; intros bot; [constructor|].
    simpl in Hps. apply andb_true_iff in Hps. destruct Hps as [Hy Hps].
    apply (lang_star_cons _ bot eot d y (joined d ps)); [|apply IH; exact Hps].
    apply lang_concat. exists [d], y. split; [reflexivity|].
    split; [apply lang_literal; reflexivity | apply Hr; exact Hy].
Qed.

(** *** Floats *)

Lemma float_piece_intro a b :
  digits_1_16 a = true -> digits_1_16 b = true ->
  float_piece (a ++ "."%char :: b) = true.
Proof.
  intros Ha Hb. unfold float_piece.
  rewrite split_on_app by (apply digits_without_point; exact Ha).
  rewrite split_on_none by (apply digits_without_point; exact Hb).
  rewrite Ha, Hb. reflexivity.
Qed.

Lemma float_piece_elim w :
  float_piece w = true ->
  exists a b, w = a ++ "."%char :: b /\ digits_1_16 a = true /\ digits_1_16 b = true.
Proof.
  unfold float_piece. intros H.
  destruct (split_on_joined "." w) as (a & ps & Hs & ->).
  rewrite Hs in H. destruct ps as [|b [|? ?]]; try discriminate.
  apply andb_true_iff in H. destruct H as [Ha Hb].
  exists a, b. unfold joined. simpl. rewrite app_nil_r. auto.
Qed.

Lemma float_piece_without d w :
  isdigit d || Ascii.eqb d "." = false ->
  float_piece w = true ->
  forallb (fun c => negb (Ascii.eqb c d)) w = true.
Proof.
  intros Hd H. apply float_piece_elim in H. destruct H as (a & b & -> & Ha & Hb).
  apply orb_false_iff in Hd. destruct Hd as [Hdig Hpt].
  assert (Hdigits : forall x, digits_1_16 x = true ->
                    forallb (fun c => negb (Ascii.eqb c d)) x = true).
  { intros x Hx. unfold digits_1_16 in Hx. rewrite !andb_true_iff in Hx.
    destruct Hx as [_ Hx]. rewrite forallb_forall in *. intros c Hc.
    specialize (Hx c Hc). destruct (Ascii.eqb_spec c d) as [->|]; [congruence|reflexivity]. }
  rewrite forallb_app. cbn [forallb]. rewrite (Hdigits a Ha), (Hdigits b Hb).
  rewrite Ascii.eqb_sym, Hpt. reflexivity.
Qed.


Lemma lang_float_piece w bot eot :
  lang (OpConcat (OpConcat digit (optional_suffix 15 digit))
          (OpConcat (literal ".") (OpConcat digit (optional_suffix 15 digit))))
       bot eot w
  <-> float_piece w = true.
Proof.
  split.
  - intros H. apply lang_concat in H. destruct H as (a & r & -> & Ha & Hr).
    apply lang_digits_1_16 in Ha.
    apply lang_concat in Hr. destruct Hr as (p & b & -> & Hp & Hb).
    apply lang_literal in Hp. subst p. apply lang_digits_1_16 in Hb.
    apply float_piece_intro; assumption.
  - intros H. apply float_piece_elim in H. destruct H as (a & b & -> & Ha & Hb).
    apply lang_concat. exists a, ("."%char :: b). split; [reflexivity|].
    split; [apply lang_digits_1_16; exact Ha|].
    apply lang_concat. exists ["."%char], b. split; [reflexivity|].
    split; [apply lang_literal; reflexivity | apply lang_digits_1_16; exact Hb].
Qed.

(** [^F(dF)*$] for the float pattern [F]: floats joined by [d]. *)
Lemma search_floats d w :
  isdigit d || Ascii.eqb d "." = false ->
  full true (searched (OpConcat OpBeginText
      (OpConcat (OpConcat digit (optional_suffix 15 digit))
         (OpConcat (literal ".")
            (OpConcat (OpConcat digit (optional_suffix 15 digit))
               (OpConcat
                  (star (OpConcat (literal d)
                     (OpConcat (OpConcat digit (optional_suffix 15 digit))
                        (OpConcat (literal ".")
                           (OpConcat digit (optional_suffix 15 digit))))))
                  OpEndText)))))) w
  = forallb float_piece (split_on d w).
Proof.
  intros Hd. apply eq_iff_eq_true. rewrite full_lang, search_anchored. split.
  - intros (w1 & w2 & -> & H).
    apply lang_concat in H. destruct H as (a & r1 & -> & Ha & H).
    apply lang_concat in H. destruct H as (p & r2 & -> & Hp & H).
    apply lang_concat in H. destruct H as (b & t & -> & Hb & H).
    apply lang_then_end in H. destruct H as [Hz Ht].
    apply isnil_true in Hz. subst w2.
    apply lang_digits_1_16 in Ha, Hb. apply lang_literal in Hp. subst p.
    apply (lang_delimited _ float_piece d (fun bot eot w => lang_float_piece w bot eot)) in Ht.
    destruct Ht as (ps & -> & Hps).
    pose proof (float_piece_intro a b Ha Hb) as Hf.
    replace ((a ++ ["."%char] ++ b ++ joined d ps) ++ [])
      with ((a ++ "."%char :: b) ++ joined d ps)
      by (rewrite app_nil_r, <- app_assoc; reflexivity).
    rewrite split_on_pieces.
    + simpl. rewrite Hf, Hps. reflexivity.
    + simpl. rewrite (float_piece_without d _ Hd Hf). simpl.
      rewrite forallb_forall in *. intros q Hq.
      apply (float_piece_without d q Hd). apply Hps. exact Hq.
  - intros H. destruct (split_on_joined d w) as (f & ps & Hs & ->).
    rewrite Hs in H. simpl in H. apply andb_true_iff in H. destruct H as [Hf Hps].
    apply float_piece_elim in Hf. destruct Hf as (a & b & -> & Ha & Hb).
    exists ((a ++ "."%char :: b) ++ joined d ps), []. rewrite app_nil_r.
    split; [reflexivity|].
    rewrite <- app_assoc.
    apply lang_concat. exists a, (("."%char :: b) ++ joined d ps).
    split; [reflexivity|]. split; [apply lang_digits_1_16; exact Ha|].
    apply lang_concat. exists ["."%char], (b ++ joined d ps).
    split; [reflexivity|]. split; [apply lang_literal; reflexivity|].
    apply lang_concat. exists b, (joined d ps).
    split; [reflexivity|]. split; [apply lang_digits_1_16; exact Hb|].
    apply lang_then_end. split; [reflexivity|].
    apply (lang_delimited _ float_piece d (fun bot eot w => lang_float_piece w bot eot)). exists ps. auto.
Qed.

End list_facts.

(** ** Int, Float and Alphanumeric flags, single or many *)

Import list_facts.

Lemma MatchString_runs pattern ranges d v :
  syntax.Parse pattern
  = inl (syntax.OpConcat syntax.OpBeginText
           (syntax.OpConcat (syntax.plus (syntax.OpCharClass ranges))
              (syntax.OpConcat
                 (syntax.star (syntax.OpConcat (syntax.literal d)
                                 (syntax.plus (syntax.OpCharClass ranges))))
                 syntax.OpEndText))) ->
  regexp.class_mem ranges d = false ->
  regexp.MatchString pattern v
  = (forallb (run_of (regexp.class_mem ranges)) (split_on d (list_ascii_of_string v)),
     nil).
Proof.
  intros Hp Hd. rewrite (MatchString_parsed _ _ _ Hp).
  rewrite regexp_facts.search_runs_joined by exact Hd. reflexivity.
Qed.

Lemma pattern_checked_of_Int c : Int_typed c = true -> pattern_checked c = true.
Proof.
  unfold Int_typed. destruct (pattern_checked c); [reflexivity | discriminate].
Qed.

Lemma pattern_checked_of_Float c : Float_typed c = true -> pattern_checked c = true.
Proof.
  unfold Float_typed. destruct (pattern_checked c); [reflexivity | discriminate].
Qed.

Lemma pattern_checked_of_Alphanumeric c :
  Alphanumeric_typed c = true -> pattern_checked c = true.
Proof.
  unfold Alphanumeric_typed. destruct (pattern_checked c); [reflexivity | discriminate].
Qed.

(** X13: an Int-typed flag, whatever its other bits, accepts a supplied
    value exactly when it is a run of one or more digits or, with
    [AllowMany], one or more such runs joined by the separator: the colon
    when [ManySeparatorColon] is set, else the semicolon when
    [ManySeparatorSemiColon] is set, else the comma. *)
Theorem Int_values w c isArg nz az :
  Int_typed c = true ->
  exclusive nz az = true -> nonempty (effective nz az) = true ->
  ValidateValue w c isArg nz az
  = Return (if values c (run_of syntax.isdigit) (effective nz az)
            then nil
            else errors.New (label_of isArg ++ " " ++ nlabel_of c isArg
                             ++ " has invalid value")).
Proof.
  intros Ht Hx Hv.
  rewrite (ValidateValue_pattern w c isArg nz az Hx (pattern_checked_of_Int c Ht) Hv).
  assert (Hm : regexp.MatchString (reValue c) (effective nz az)
               = (values c (run_of syntax.isdigit) (effective nz az), nil)).
  { unfold values, separator, has. flag_bits. unfold reValue, reType.
    repeat match goal with H : (_ >? 0) = true |- _ => rewrite H; clear H end.
    destruct (nflags c .& AllowMany >? 0).
    - destruct (nflags c .& ManySeparatorColon >? 0);
        [|destruct (nflags c .& ManySeparatorSemiColon >? 0)];
        cbn [append];
        match goal with
        | |- regexp.MatchString ?p ?v = (forallb _ (split_on ?d _), _) =>
            rewrite (MatchString_runs p [(48, 57)%N] d v eq_refl eq_refl)
        end;
        rewrite (runs_ext _ syntax.isdigit _ regexp_facts.class_mem_digit);
        reflexivity.
    - cbn [append].
      match goal with
      | |- regexp.MatchString ?p ?v = _ =>
          rewrite (MatchString_run p [(48, 57)%N] v eq_refl)
      end.
      rewrite (run_of_ext _ syntax.isdigit _ regexp_facts.class_mem_digit).
      reflexivity. }
  rewrite Hm. reflexivity.
Qed.

Lemma Int_values_witness :
  Int_typed (sample (TypeInt + TypeFloat + AllowMany + ManySeparatorColon
                     + ManySeparatorSemiColon)) = true
  /\ ValidateValue sample_fs
       (sample (TypeInt + TypeFloat + AllowMany + ManySeparatorColon
                + ManySeparatorSemiColon)) false "80:443:8080" ""
     = Return nil
  /\ ValidateValue sample_fs
       (sample (TypeInt + TypeFloat + AllowMany + ManySeparatorColon
                + ManySeparatorSemiColon)) false "80;443" ""
     = Return (errors.New "Flag input has invalid value").
Proof.
  split; [reflexivity|].
  split.
  - apply (Int_values sample_fs
             (sample (TypeInt + TypeFloat + AllowMany + ManySeparatorColon
                      + ManySeparatorSemiColon)) false "80:443:8080" "");
      reflexivity.
  - apply (Int_values sample_fs
             (sample (TypeInt + TypeFloat + AllowMany + ManySeparatorColon
                      + ManySeparatorSemiColon)) false "80;443" "");
      reflexivity.
Defined.

Lemma MatchString_floats pattern d v :
  syntax.Parse pattern
  = inl (syntax.OpConcat syntax.OpBeginText
      (syntax.OpConcat (syntax.OpConcat digit (syntax.optional_suffix 15 digit))
         (syntax.OpConcat (syntax.literal ".")
            (syntax.OpConcat (syntax.OpConcat digit (syntax.optional_suffix 15 digit))
               (syntax.OpConcat
                  (syntax.star (syntax.OpConcat (syntax.literal d)
                     (syntax.OpConcat
                        (syntax.OpConcat digit (syntax.optional_suffix 15 digit))
                        (syntax.OpConcat (syntax.literal ".")
                           (syntax.OpConcat digit (syntax.optional_suffix 15 digit))))))
                  syntax.OpEndText))))) ->
  syntax.isdigit d || Ascii.eqb d "." = false ->
  regexp.MatchString pattern v
  = (forallb float_piece (split_on d (list_ascii_of_string v)), nil).
Proof.
  intros Hp Hd. rewrite (MatchString_parsed _ _ _ Hp).
  rewrite search_floats by exact Hd. reflexivity.
Qed.

(** X14: a Float-typed flag accepts a supplied value exactly when it is
    1-16 digits, a decimal point and 1-16 digits or, with [AllowMany], one
    or more such numbers joined by the separator. *)
Theorem Float_values w c isArg nz az :
  Float_typed c = true ->
  exclusive nz az = true -> nonempty (effective nz az) = true ->
  ValidateValue w c isArg nz az
  = Return (if values c float_piece (effective nz az)
            then nil
            else errors.New (label_of isArg ++ " " ++ nlabel_of c isArg
                             ++ " has invalid value")).
Proof.
  intros Ht Hx Hv.
  rewrite (ValidateValue_pattern w c isArg nz az Hx (pattern_checked_of_Float c Ht) Hv).
  assert (Hm : regexp.MatchString (reValue c) (effective nz az)
               = (values c float_piece (effective nz az), nil)).
  { unfold values, separator, has. flag_bits. unfold reValue, reType.
    repeat match goal with H : (_ >? 0) = _ |- _ => rewrite H; clear H end.
    destruct (nflags c .& AllowMany >? 0).
    - destruct (nflags c .& ManySeparatorColon >? 0);
        [|destruct (nflags c .& ManySeparatorSemiColon >? 0)];
        cbn [append];
        match goal with
        | |- regexp.MatchString ?p ?v = (forallb _ (split_on ?d _), _) =>
            rewrite (MatchString_floats p d v eq_refl eq_refl)
        end;
        reflexivity.
    - cbn [append]. rewrite MatchString_float. reflexivity. }
  rewrite Hm. reflexivity.
Qed.

Lemma Float_values_witness :
  Float_typed (sample (TypeFloat + AllowMany + ManySeparatorSemiColon)) = true
  /\ ValidateValue sample_fs (sample (TypeFloat + AllowMany + ManySeparatorSemiColon))
       false "" "1.5;20.25"
     = Return nil
  /\ ValidateValue sample_fs (sample (TypeFloat + AllowMany + ManySeparatorSemiColon))
       false "" "1.5;20"
     = Return (errors.New "Flag input has invalid value").
Proof.
  split; [reflexivity|].
  split.
  - apply (Float_values sample_fs (sample (TypeFloat + AllowMany + ManySeparatorSemiColon))
             false "" "1.5;20.25"); reflexivity.
  - apply (Float_values sample_fs (sample (TypeFloat + AllowMany + ManySeparatorSemiColon))
             false "" "1.5;20"); reflexivity.
Defined.

Lemma alnum_ranges_class c ch :
  regexp.class_mem (alnum_ranges c) ch = alnum_class c ch.
Proof.
  unfold alnum_ranges, alnum_class.
  destruct (has c AllowHyphen), (has c AllowUnderscore), (has c AllowDots);
    cbn [andb orb app]; destruct ch as [[] [] [] [] [] [] [] []]; reflexivity.
Qed.

Lemma values_ext c (ok ok' : list ascii -> bool) v :
  (forall w, ok w = ok' w) -> values c ok v = values c ok' v.
Proof.
  intros H. unfold values. destruct (has c AllowMany); [|apply H].
  apply regexp_facts.forallb_ext. exact H.
Qed.

(** X15: an Alphanumeric-typed flag accepts a supplied value exactly when
    it is a run of one or more characters of its class or, with
    [AllowMany], one or more such runs joined by the separator.  The class
    is [A-Za-z0-9] with the dot when [AllowDots] is set, the underscore
    when [AllowUnderscore] is set, and the hyphen when [AllowHyphen] is
    set together with one of the other two. *)
Theorem Alphanumeric_values w c isArg nz az :
  Alphanumeric_typed c = true ->
  exclusive nz az = true -> nonempty (effective nz az) = true ->
  ValidateValue w c isArg nz az
  = Return (if values c (run_of (alnum_class c)) (effective nz az)
            then nil
            else errors.New (label_of isArg ++ " " ++ nlabel_of c isArg
                             ++ " has invalid value")).
Proof.
  intros Ht Hx Hv.
  rewrite (ValidateValue_pattern w c isArg nz az Hx
             (pattern_checked_of_Alphanumeric c Ht) Hv).
  rewrite <- (values_ext c _ _ _ (fun w => run_of_ext _ _ w (alnum_ranges_class c))).
  assert (Hm : regexp.MatchString (reValue c) (effective nz az)
               = (values c (run_of (regexp.class_mem (alnum_ranges c)))
                    (effective nz az), nil)).
  { unfold values, separator, alnum_ranges, has. flag_bits. unfold reValue, reType.
    repeat match goal with H : (_ >? 0) = _ |- _ => rewrite H; clear H end.
    destruct (nflags c .& AllowHyphen >? 0);
    destruct (nflags c .& AllowUnderscore >? 0);
    destruct (nflags c .& AllowDots >? 0);
    cbn [andb orb app];
    (destruct (nflags c .& AllowMany >? 0);
     [ destruct (nflags c .& ManySeparatorColon >? 0);
       [|destruct (nflags c .& ManySeparatorSemiColon >? 0)];
       cbn [append];
       match goal with
       | |- regexp.MatchString ?p ?v
            = (forallb (run_of (regexp.class_mem ?r)) (split_on ?d _), _) =>
           rewrite (MatchString_runs p r d v eq_refl eq_refl)
       end; reflexivity
     | cbn [append];
       match goal with
       | |- regexp.MatchString ?p ?v = (run_of (regexp.class_mem ?r) _, _) =>
           rewrite (MatchString_run p r v eq_refl)
       end; reflexivity ]). }
  rewrite Hm. reflexivity.
Qed.

Lemma Alphanumeric_values_witness :
  Alphanumeric_typed (sample (TypeAlphanumeric + AllowDots + AllowHyphen + AllowMany)) = true
  /\ ValidateValue sample_fs
       (sample (TypeAlphanumeric + AllowDots + AllowHyphen + AllowMany))
       false "web-1.example,db-2" ""
     = Return nil
  /\ ValidateValue sample_fs
       (sample (TypeAlphanumeric + AllowDots + AllowHyphen + AllowMany))
       false "web_1" ""
     = Return (errors.New "Flag input has invalid value").
Proof.
  split; [reflexivity|].
  split.
  - apply (Alphanumeric_values sample_fs
             (sample (TypeAlphanumeric + AllowDots + AllowHyphen + AllowMany))
             false "web-1.example,db-2" ""); reflexivity.
  - apply (Alphanumeric_values sample_fs
             (sample (TypeAlphanumeric + AllowDots + AllowHyphen + AllowMany))
             false "web_1" ""); reflexivity.
Defined.

(** X16: every pattern that the bits can make [ValidateValue] build is a
    well-formed regular expression: compiling it never fails, so a value
    is only ever rejected for not matching. *)
Theorem patterns_always_compile c v :
  snd (regexp.MatchString (reValue c) v) = nil.
Proof.
  assert (H : exists re, syntax.Parse (reValue c) = inl re).
  { unfold reValue, reType.
    repeat match goal with
    | |- context [if ?b then _ else _] => destruct b
    end; cbn [append]; eexists; reflexivity. }
  destruct H as (re & H). unfold regexp.MatchString. rewrite H. reflexivity.
Qed.

(** ** The help line *)

Lemma count_char_app ch s t :
  count_char ch (s ++ t) = (count_char ch s + count_char ch t)%nat.
Proof.
  induction s as [|a s IH]; cbn [append count_char]; [reflexivity|].
  rewrite IH. lia.
Qed.

(** X17: the help line ends with a newline and holds two tabs and one
    newline beyond those of the alias, name, placeholder and description:
    with fields free of tabs and newlines it is one line of three
    tab-separated columns, with or without an alias. *)
Theorem GetHelpLine_columns c :
  let fields ch := (count_char ch (alias c) + count_char ch (name c)
                    + count_char ch (helpValue c) + count_char ch (desc c))%nat in
  count_char "009" (GetHelpLine c) = (2 + fields "009"%char)%nat
  /\ count_char "010" (GetHelpLine c) = (1 + fields "010"%char)%nat
  /\ last_char (GetHelpLine c) = Some "010"%char.
Proof.
  cbv zeta. unfold GetHelpLine, tab, newline.
  destruct (String.eqb_spec (alias c) "") as [E|E].
  - rewrite E. rewrite !count_char_app, !last_char_app. cbn. repeat split; lia.
  - rewrite !count_char_app, !last_char_app. cbn. repeat split; lia.
Qed.

(** ** [Required] *)

(** X18: [Required] matters only when no value is supplied: as soon as
    one of the two forms carries a value, setting or clearing the bit
    leaves the outcome unchanged. *)
Theorem Required_matters_only_without_value w n a hv d mask isArg nz az :
  ((nz =? "") && (az =? ""))%string = false ->
  ValidateValue w (NewCLIFlag n a hv d (Z.lor mask Required)) isArg nz az
  = ValidateValue w (NewCLIFlag n a hv d (Z.land mask (Z.lnot Required))) isArg nz az.
Proof.
  intros He. unfold ValidateValue, reValue, reType.
  cbn [nflags name alias helpValue].
  repeat match goal with
  | |- context [Z.lor mask Required .& ?bit] =>
      lazymatch bit with
      | Required => fail
      | _ => rewrite (land_set_other mask Required bit) by reflexivity
      end
  | |- context [Z.land mask (Z.lnot Required) .& ?bit] =>
      lazymatch bit with
      | Required => fail
      | _ => rewrite (land_clear_other mask Required bit) by reflexivity
      end
  end.
  destruct (nonempty nz && nonempty az) eqn:Hx; [reflexivity|].
  rewrite He, !andb_false_r. cbn [andb].
  assert (Hv : nonempty (if nonempty nz then nz else az) = true).
  { unfold nonempty. destruct (nz =? "")%string eqn:En; cbn [negb andb] in *.
    - rewrite He. reflexivity.
    - rewrite En. reflexivity. }
  rewrite Hv, !orb_true_r. reflexivity.
Qed.

Lemma Required_matters_only_without_value_witness :
  (("8080" =? "") && ("" =? ""))%string = false
  /\ ValidateValue sample_fs
       (NewCLIFlag "port" "p" "PORT" "the port" (Z.lor TypeInt Required)) false "8080" ""
     = ValidateValue sample_fs
       (NewCLIFlag "port" "p" "PORT" "the port" (Z.land TypeInt (Z.lnot Required)))
       false "8080" "".
Proof.
  split; [reflexivity|].
  apply (Required_matters_only_without_value sample_fs "port" "p" "PORT" "the port"
           TypeInt false "8080" ""). reflexivity.
Defined.
